(** * cbdynclusterd: the cluster lifecycle daemon

    A shallow embedding of [daemon/nodes.go] and [daemon/clusters.go].

    - Go strings are byte strings: [string].
    - Go [int], [time.Duration] (nanoseconds) and instants of [time.Time]
      (nanoseconds since the zero instant) are integers: [Z].
    - Go maps are finite maps: [gmap].
    - A function that returns [(T, error)] returns a [res T]; a run-time
      panic (index or slice out of range, nil dereference) is kept apart
      from an error value.
    - Calls to the collaborators (container runtime, metadata store, clock,
      DNS registrar) are the actions of a free monad; goroutines are
      interleaved one action at a time by an explicit scheduler.
    - [toURL] takes the two URLs of the [cluster] package as arguments.
    - [killAllClusters] (goroutines that start goroutines) is not
      embedded; no statement below is about it. *)

From Stdlib Require Import Ascii.
From stdpp Require Import gmap strings list fin_maps pretty.

Open Scope Z_scope.

(** ** Go values: errors, results, panics *)

(** [errors.New(msg)]: an error is identified with its message. *)
Definition error := string.

(** The pair [(T, error)] a Go function returns. *)
Inductive res (A : Type) : Type :=
| Ok (a : A)
| Err (e : error).
Arguments Ok {A} a.
Arguments Err {A} e.

(** A pure Go function either returns or panics. *)
Inductive outcome (A : Type) : Type :=
| Returns (a : A)
| Panics (msg : string).
Arguments Returns {A} a.
Arguments Panics {A} msg.

Definition outcome_bind {A B} (o : outcome A) (k : A → outcome B) : outcome B :=
  match o with
  | Returns a => k a
  | Panics msg => Panics msg
  end.

Notation "x ←! o ; k" := (outcome_bind o (fun x => k))
  (at level 100, o at next level, right associativity).

Definition index_out_of_range : string := "runtime error: index out of range".
Definition slice_out_of_range : string := "runtime error: slice bounds out of range".
Definition nil_dereference : string :=
  "runtime error: invalid memory address or nil pointer dereference".

(** [xs[i]] on a Go slice: panics out of range. *)
Definition go_index {A} (xs : list A) (i : nat) : outcome A :=
  match xs !! i with
  | Some x => Returns x
  | None => Panics index_out_of_range
  end.

(** [s[0:n]] on a Go string: panics when [n > len(s)]. *)
Definition go_prefix (n : nat) (s : string) : outcome string :=
  if decide (n ≤ String.length s)%nat then Returns (String.substring 0 n s)
  else Panics slice_out_of_range.

(** ** The Go standard library functions the code calls *)

(** [strings.Split(s, sep)] for a separator of one byte: the pieces between
    the occurrences of [sep]; never empty (splitting the empty string gives one empty piece). *)
Fixpoint strings_Split (sep : ascii) (s : string) : list string :=
  match s with
  | EmptyString => [EmptyString]
  | String c s' =>
      if decide (c = sep) then EmptyString :: strings_Split sep s'
      else match strings_Split sep s' with
           | [] => [String c EmptyString]
           | p :: ps => String c p :: ps
           end
  end.

Definition digit_value (c : ascii) : option Z :=
  let n := Z.of_N (N_of_ascii c) in
  if decide (48 ≤ n ≤ 57) then Some (n - 48) else None.

Fixpoint parse_digits (s : string) (acc : Z) : option Z :=
  match s with
  | EmptyString => Some acc
  | String c s' =>
      match digit_value c with
      | Some d => parse_digits s' (10 * acc + d)
      | None => None
      end
  end.

Definition int_min : Z := - 2 ^ 63.
Definition int_max : Z := 2 ^ 63 - 1.

(** [strconv.Atoi]: an optional sign, then one or more decimal digits, the
    value within the 64-bit [int]; [None] stands for the returned error
    (syntax or range), which both callers replace by their own. *)
Definition strconv_Atoi (s : string) : option Z :=
  let '(neg, body) :=
    match s with
    | String "-"%char r => (true, r)
    | String "+"%char r => (false, r)
    | _ => (false, s)
    end in
  match body with
  | EmptyString => None
  | _ =>
      match parse_digits body 0 with
      | None => None
      | Some v =>
          let v' := if neg : bool then - v else v in
          if decide (int_min ≤ v' ≤ int_max) then Some v' else None
      end
  end.

(** ** nodes.go: the version resolver *)

(** Each Go struct is a record in a module of its name, so that the fields
    keep their names: [NodeVersion.Build nv] is [nv.Build]. *)
Module NodeVersion.
Record t := mk {
  Version : string;
  Flavor : string;
  Build : string
}.
End NodeVersion.

Module NodeOptions.
Record t := mk {
  Name : string;
  Platform : string;
  ServerVersion : string;
  VersionInfo : option NodeVersion.t   (* a pointer: nil is None *)
}.
End NodeOptions.

(** [func (nv *NodeVersion) toTagName() string] *)
Definition toTagName (nv : NodeVersion.t) : string :=
  if decide (NodeVersion.Build nv = EmptyString) then NodeVersion.Version nv +:+ ".centos7"
  else NodeVersion.Version nv +:+ "-" +:+ NodeVersion.Build nv +:+ ".centos7".

(** [func (nv *NodeVersion) toImageName() string]; [dockerRegistry] is a
    package variable set from the configuration. *)
Definition toImageName (dockerRegistry : string) (nv : NodeVersion.t) : string :=
  dockerRegistry +:+ "/dynclsr-couchbase_" +:+ toTagName nv.

(** [func (nv *NodeVersion) toPkgName() string] *)
Definition toPkgName (nv : NodeVersion.t) : string :=
  if decide (NodeVersion.Build nv = EmptyString) then
    "couchbase-server-enterprise-" +:+ NodeVersion.Version nv +:+ "-centos7.x86_64.rpm"
  else
    "couchbase-server-enterprise-" +:+ NodeVersion.Version nv +:+ "-" +:+ NodeVersion.Build nv
      +:+ "-centos7.x86_64.rpm".

(** [var versionToFlavor = map[int]map[int]string{...}] *)
Definition versionToFlavor : gmap Z (gmap Z string) :=
  {[ 4 := {[ 0 := "sherlock"; 5 := "watson" ]};
     5 := {[ 0 := "spock"; 5 := "vulcan" ]};
     6 := {[ 0 := "alice"; 5 := "mad-hatter" ]};
     7 := {[ 0 := "cheshire-cat" ]} ]}.

(** [versionToFlavor[major][minor]] with the comma-ok form: a missing major
    gives a nil inner map, whose lookup is not ok. *)
Definition lookupFlavor (major minor : Z) : option string :=
  versionToFlavor !! major ≫= (.!! minor).

(** The two buckets of a major: [if minor >= 5 { minor = 5 } else { minor = 0 }] *)
Definition floorMinor (minor : Z) : Z :=
  if decide (5 ≤ minor) then 5 else 0.

Definition err_major : error := "Could not convert version major to int".
Definition err_minor : error := "Could not convert version minor to int".

(** [fmt.Errorf("%d.%d is not a recognised flavor", major, minor)] *)
Definition err_flavor (major minor : Z) : error :=
  pretty major +:+ "." +:+ pretty minor +:+ " is not a recognised flavor".

(** [func flavorFromVersion(version string) (string, error)] *)
Definition flavorFromVersion (version : string) : outcome (res string) :=
  let versionSplit := strings_Split "."%char version in
  s0 ←! go_index versionSplit 0;
  match strconv_Atoi s0 with
  | None => Returns (Err err_major)
  | Some major =>
      s1 ←! go_index versionSplit 1;
      match strconv_Atoi s1 with
      | None => Returns (Err err_minor)
      | Some minor =>
          let minor := floorMinor minor in
          match lookupFlavor major minor with
          | None => Returns (Err (err_flavor major minor))
          | Some flavor => Returns (Ok flavor)
          end
      end
  end.

(** [func parseServerVersion(version string)], returning a pointer to a
    [NodeVersion] and an error. *)
Definition parseServerVersion (version : string) : outcome (res NodeVersion.t) :=
  let versionParts := strings_Split "-"%char version in
  v0 ←! go_index versionParts 0;
  r ←! flavorFromVersion v0;
  match r with
  | Err e => Returns (Err e)
  | Ok flavor =>
      if decide (1 < length versionParts)%nat then
        b ←! go_index versionParts 1;
        Returns (Ok (NodeVersion.mk v0 flavor b))
      else
        Returns (Ok (NodeVersion.mk v0 flavor EmptyString))
  end.

(** ** The collaborators' data *)

(** [network.EndpointSettings], the two fields the code reads. *)
Module EndpointSettings.
Record t := mk {
  IPAddress : string;
  GlobalIPv6Address : string
}.
End EndpointSettings.

(** [types.Container], an entry of the runtime's listing.
    [NetworkSettings] is a pointer to a struct holding the [Networks] map,
    whose values are pointers: nil is [None] at both levels. *)
Module Container.
Record t := mk {
  ID : string;
  State : string;
  Labels : gmap string string;
  NetworkSettings : option (gmap string EndpointSettings.t)
}.
End Container.

Module Node.
Record t := mk {
  ContainerID : string;
  State : string;
  Name : string;
  InitialServerVersion : string;
  IPv4Address : string;
  IPv6Address : string
}.
End Node.

(** Modelled from the spec: the [ClusterMeta] struct is declared with the
    metadata store, outside the two files; the spec gives it as
    [{owner: identity, timeout: absolute timestamp}]. *)
Module ClusterMeta.
Record t := mk {
  Owner : string;
  Timeout : Z
}.
End ClusterMeta.

Module Cluster.
Record t := mk {
  ID : string;
  Creator : string;
  Owner : string;
  Timeout : Z;
  Nodes : list Node.t
}.
End Cluster.

Module ClusterOptions.
Record t := mk {
  Timeout : Z;
  Nodes : list NodeOptions.t
}.
End ClusterOptions.

(** Modelled from the spec: [ContextUser] and [ContextIgnoreOwnership] are
    defined outside the two files; the spec gives the caller identity
    context as supplying [identity] and [ignoreOwnership: bool] for every
    operation. *)
Module Context.
Record t := mk {
  User : string;
  IgnoreOwnership : bool
}.
End Context.
Definition ContextUser (ctx : Context.t) : string := Context.User ctx.
Definition ContextIgnoreOwnership (ctx : Context.t) : bool :=
  Context.IgnoreOwnership ctx.

(** The zero [ClusterMeta{}]: empty owner, zero instant. *)
Definition zeroMeta : ClusterMeta.t := ClusterMeta.mk EmptyString 0.

(** [m[k]] on a Go [map[string]string]: the empty string when absent. *)
Definition go_label (m : gmap string string) (k : string) : string :=
  default EmptyString (m !! k).

(** A rendered [uuid.UUID]: [String()] always has 36 bytes. *)
Definition UUIDString : Type :=
  { s : string | bool_decide (String.length s = 36%nat) = true }.

(** ** The actions: every call that leaves the two files *)

Inductive call : Type :=
| ContainerList
    (* docker.ContainerList(ctx, types.ContainerListOptions{All: true}) *)
| ContainerCreate (image : string) (labels : gmap string string)
    (dns : list string) (name : string)
    (* the constant parts of the request are left out: the bind mount of
       /etc/localtime, AutoRemove, the network mode *)
| ContainerStart (id : string)
| ContainerInspect (id : string)
| ContainerStop (id : string)
| GetClusterMeta (clusterID : string)
| CreateClusterMeta (clusterID : string) (meta : ClusterMeta.t)
| UpdateClusterMeta (clusterID : string) (f : ClusterMeta.t → res ClusterMeta.t)
| TimeNow
| NewRandomUUID
| RestRetryer (hostname : string) (path : string) (body : string).

Definition reply (c : call) : Type :=
  match c with
  | ContainerList => res (list Container.t)
  | ContainerCreate _ _ _ _ => res string
  | ContainerStart _ => option error
  | ContainerInspect _ => res (option (gmap string EndpointSettings.t))
  | ContainerStop _ => option error
  | GetClusterMeta _ => (ClusterMeta.t * option error)%type
  | CreateClusterMeta _ _ => option error
  | UpdateClusterMeta _ _ => option error
  | TimeNow => Z
  | NewRandomUUID => UUIDString
  | RestRetryer _ _ _ => (string * option error)%type
  end.

(** ** Programs: a free monad over an interface of actions *)

Section Free.
Context {action : Type} {result : action → Type}.

Inductive free (A : Type) : Type :=
| Ret (a : A)
| Panic (msg : string)
| Do (c : action) (k : result c → free A).
Arguments Ret {A} a.
Arguments Panic {A} msg.
Arguments Do {A} c k.

Fixpoint bind {A B} (p : free A) (f : A → free B) : free B :=
  match p with
  | Ret a => f a
  | Panic msg => Panic msg
  | Do c k => Do c (fun r => bind (k r) f)
  end.
End Free.
Arguments free {action} result A.
Arguments Ret {action result A} a.
Arguments Panic {action result A} msg.
Arguments Do {action result A} c k.

(** The code of one goroutine: a sequence of calls. *)
Abbreviation task := (free reply).

(** The main line of an operation: calls, and the fan-out
    [[
      signal := make(chan error)
      for ... { go func(...) { signal <- f(...) }(...) }
      for range ... { err := <-signal; ... }
    ]]
    whose result is the errors in the order in which they were received. *)
Inductive step : Type :=
| Call (c : call)
| FanOut (workers : list (task (option error))).

Definition step_reply (s : step) : Type :=
  match s with
  | Call c => reply c
  | FanOut _ => list (option error)
  end.

Abbreviation prog := (free step_reply).

Definition call_ (c : call) : prog (reply c) := Do (Call c) Ret.
Definition fanOut (workers : list (task (option error)))
  : prog (list (option error)) := Do (FanOut workers) Ret.
Definition tcall (c : call) : task (reply c) := Do c Ret.

#[global] Instance free_mbind {action} {result : action → Type}
  : MBind (free result) := λ A B f p, bind p f.
#[global] Instance free_mret {action} {result : action → Type}
  : MRet (free result) := λ A a, Ret a.

(** A panic of a pure computation is a panic of the program. *)
Definition lift {action} {result : action → Type} {A} (o : outcome A)
  : free result A :=
  match o with
  | Returns a => Ret a
  | Panics msg => Panic msg
  end.

(** ** The environment and the state *)

(** The package variables set from the configuration at start-up. *)
Record Config := {
  dockerRegistry : string;
  dnsSvcHost : string;
  helperDomain : string   (* helper.Domain *)
}.

(** What is outside the program: the answers of the collaborators and the
    scheduler.  Answers and scheduling choices are indexed by the number of
    steps taken so far, so that the same call may be answered differently
    at different times; nothing is assumed of the container runtime, the
    clock or the DNS registrar.  [GetClusterMeta] is answered by the
    store; for [CreateClusterMeta] and [UpdateClusterMeta] the answer says
    whether the store fails at that step. *)
Record Env := {
  answer : nat → ∀ c : call, reply c;
  sched : nat → nat
}.

Record World := {
  store : gmap string ClusterMeta.t;   (* the metadata store *)
  tick : nat;                          (* steps taken so far *)
  trace : list call                    (* the calls made so far, oldest first *)
}.

Definition err_no_meta : error := "cluster metadata not found".

Definition advance (c : call) (st : gmap string ClusterMeta.t) (w : World) : World :=
  {| store := st; tick := S (tick w); trace := trace w ++ [c] |}.

(** Modelled from the spec: the metadata store is outside the two files; the
    spec gives its contract as [create(clusterID, meta)],
    [get(clusterID) -> meta | NotFound] and an atomic
    [update(clusterID, fn(meta) -> meta)].  A failed [get] returns the zero
    record with the error; [create] and [update] either fail, leaving the
    store as it was, or write the record in one step. *)
Definition storeGet (st : gmap string ClusterMeta.t) (clusterID : string)
  : ClusterMeta.t * option error :=
  match st !! clusterID with
  | Some meta => (meta, None)
  | None => (zeroMeta, Some err_no_meta)
  end.

Definition storeCreate (fault : option error) (st : gmap string ClusterMeta.t)
    (clusterID : string) (meta : ClusterMeta.t)
  : option error * gmap string ClusterMeta.t :=
  match fault with
  | Some e => (Some e, st)
  | None => (None, <[clusterID := meta]> st)
  end.

Definition storeUpdate (fault : option error) (st : gmap string ClusterMeta.t)
    (clusterID : string) (f : ClusterMeta.t → res ClusterMeta.t)
  : option error * gmap string ClusterMeta.t :=
  match fault with
  | Some e => (Some e, st)
  | None =>
      match st !! clusterID with
      | None => (Some err_no_meta, st)
      | Some meta =>
          match f meta with
          | Err e => (Some e, st)
          | Ok meta' => (None, <[clusterID := meta']> st)
          end
      end
  end.

(** One call: the answer, and the state after it. *)
Definition handle (env : Env) (c : call) (w : World) : reply c * World :=
  match c as c0 return reply c0 → reply c0 * World with
  | GetClusterMeta clusterID => λ _,
      (storeGet (store w) clusterID, advance c (store w) w)
  | CreateClusterMeta clusterID meta => λ fault,
      let '(r, st) := storeCreate fault (store w) clusterID meta in
      (r, advance c st w)
  | UpdateClusterMeta clusterID f => λ fault,
      let '(r, st) := storeUpdate fault (store w) clusterID f in
      (r, advance c st w)
  | _ => λ r, (r, advance c (store w) w)
  end (answer env (tick w) c).

(** How a run ends: the function returns, the process dies of a panic, or
    the bound on the scheduler's steps was too small. *)
Inductive exec (A : Type) : Type :=
| Done (a : A)
| Crashed (msg : string)
| OutOfFuel.
Arguments Done {A} a.
Arguments Crashed {A} msg.
Arguments OutOfFuel {A}.

(** The fan-out.  [pool] holds what is left of each goroutine, [got] the
    errors received so far.  At each step the scheduler picks a goroutine:
    one that is about to call makes its call; one that has returned [e] is
    blocked in [signal <- e], and picking it is the main line receiving [e].
    The main line goes on when every goroutine has been received from. *)
Fixpoint runPool (env : Env) (fuel : nat) (pool : list (task (option error)))
    (got : list (option error)) (w : World)
  : exec (list (option error)) * World :=
  match pool with
  | [] => (Done got, w)
  | _ :: _ =>
      match fuel with
      | O => (OutOfFuel, w)
      | S fuel' =>
          let i := (sched env (tick w) `mod` length pool)%nat in
          match pool !! i with
          | None => (OutOfFuel, w)
          | Some (Ret e) =>
              runPool env fuel' (delete i pool) (got ++ [e])
                {| store := store w; tick := S (tick w); trace := trace w |}
          | Some (Panic msg) => (Crashed msg, w)
          | Some (Do c k) =>
              let '(r, w') := handle env c w in
              runPool env fuel' (<[i := k r]> pool) got w'
          end
      end
  end.

(** The main line.  [fuel] bounds the steps of each fan-out. *)
Fixpoint run (env : Env) (fuel : nat) {A} (p : prog A) (w : World)
  : exec A * World :=
  match p with
  | Ret a => (Done a, w)
  | Panic msg => (Crashed msg, w)
  | Do s k =>
      match s as s0 return (step_reply s0 → prog A) → exec A * World with
      | Call c => λ k,
          let '(r, w') := handle env c w in run env fuel (k r) w'
      | FanOut workers => λ k,
          match runPool env fuel workers [] w with
          | (Done errs, w') => run env fuel (k errs) w'
          | (Crashed msg, w') => (Crashed msg, w')
          | (OutOfFuel, w') => (OutOfFuel, w')
          end
      end k
  end.

(** ** nodes.go: one node *)

(** [var NetworkName = "macvlan0"] *)
Definition NetworkName : string := "macvlan0".

Definition label_creator : string := "com.couchbase.dyncluster.creator".
Definition label_cluster_id : string := "com.couchbase.dyncluster.cluster_id".
Definition label_node_name : string := "com.couchbase.dyncluster.node_name".
Definition label_initial_server_version : string :=
  "com.couchbase.dyncluster.initial_server_version".

Definition dquote : string := String "034"%char EmptyString.

(** [func registerDomainName(hostname, ip string) (string, error)]: a PUT
    of the JSON body [{ips:[ip]}] to the DNS service, through the retrying
    helper. *)
Definition registerDomainName (cfg : Config) (hostname ip : string)
  : task (string * option error) :=
  tcall (RestRetryer (dnsSvcHost cfg)
           (helperDomain cfg +:+ "/" +:+ hostname)
           ("{" +:+ dquote +:+ "ips" +:+ dquote +:+ ":[" +:+ dquote +:+ ip
              +:+ dquote +:+ "]}")).

(** [func allocateNode(ctx, clusterID string, timeout time.Time,
    opts NodeOptions) (string, error)].  Calls to the loggers are left out
    here and below. *)
Definition allocateNode (cfg : Config) (ctx : Context.t) (clusterID : string)
    (timeout : Z) (opts : NodeOptions.t) : task (res string) :=
  let containerName := "dynclsr-" +:+ clusterID +:+ "-" +:+ NodeOptions.Name opts in
  match NodeOptions.VersionInfo opts with
  | None => Panic nil_dereference
  | Some nv =>
      let containerImage := toImageName (dockerRegistry cfg) nv in
      let dns := if decide (dnsSvcHost cfg ≠ EmptyString) then [dnsSvcHost cfg] else [] in
      let labels : gmap string string :=
        {[ label_creator := ContextUser ctx;
           label_cluster_id := clusterID;
           label_node_name := NodeOptions.Name opts;
           label_initial_server_version := NodeOptions.ServerVersion opts ]} in
      createResult ← tcall (ContainerCreate containerImage labels dns containerName);
      match createResult with
      | Err err => Ret (Err err)
      | Ok createResultID =>
          err ← tcall (ContainerStart createResultID);
          match err with
          | Some err => Ret (Err err)
          | None =>
              inspected ← tcall (ContainerInspect createResultID);
              match inspected with
              | Err err => Ret (Err err)
              | Ok containerJSON =>
                  match containerJSON ≫= (.!! NetworkName) with
                  | None => Panic nil_dereference
                  | Some net =>
                      let ipv4 := EndpointSettings.IPAddress net in
                      let ipv6 := EndpointSettings.GlobalIPv6Address net in
                      let containerHostName := containerName +:+ ".couchbase.com" in
                      if decide (dnsSvcHost cfg ≠ EmptyString) then
                        _ ← (if decide (ipv4 ≠ EmptyString)
                             then _ ← registerDomainName cfg containerHostName ipv4; Ret ()
                             else Ret ());
                        _ ← (if decide (ipv6 ≠ EmptyString)
                             then _ ← registerDomainName cfg containerHostName ipv6; Ret ()
                             else Ret ());
                        Ret (Ok createResultID)
                      else Ret (Ok createResultID)
                  end
              end
          end
      end
  end.

(** [func killNode(ctx, containerID string) error] *)
Definition killNode (ctx : Context.t) (containerID : string) : task (option error) :=
  tcall (ContainerStop containerID).

(** ** clusters.go *)

(** [func newRandomClusterID() string]: the first 8 bytes of the rendered
    UUID. *)
Definition newRandomClusterID : prog string :=
  uuid ← call_ NewRandomUUID;
  lift (go_prefix 8 (proj1_sig uuid)).

(** The first loop of [getAllClusters]:
    [clusterMap[clusterID] = append(clusterMap[clusterID], container)]
    for the containers with a non-empty cluster-id label. *)
Definition groupStep (clusterMap : gmap string (list Container.t))
    (container : Container.t) : gmap string (list Container.t) :=
  let clusterID := go_label (Container.Labels container) label_cluster_id in
  if decide (clusterID ≠ EmptyString) then
    <[clusterID := default [] (clusterMap !! clusterID) ++ [container]]> clusterMap
  else clusterMap.

Definition groupByCluster (containers : list Container.t)
  : gmap string (list Container.t) :=
  foldl groupStep ∅ containers.

Definition fakeNet : EndpointSettings.t :=
  EndpointSettings.mk EmptyString EmptyString.

(** The loop over the containers of one cluster, with its two variables
    [clusterCreator] and [nodes]. *)
Fixpoint nodesOf (containers : list Container.t) (clusterCreator : string)
    (nodes : list Node.t) : outcome (string * list Node.t) :=
  match containers with
  | [] => Returns (clusterCreator, nodes)
  | container :: rest =>
      match Container.NetworkSettings container with
      | None => Panics nil_dereference
      | Some networks =>
          let eth0Net := default fakeNet (networks !! "macvlan0") in
          let containerCreator := go_label (Container.Labels container) label_creator in
          let clusterCreator :=
            if decide (clusterCreator = EmptyString) then containerCreator
            else clusterCreator in
          id12 ←! go_prefix 12 (Container.ID container);
          nodesOf rest clusterCreator
            (nodes ++ [Node.mk id12 (Container.State container)
                         (go_label (Container.Labels container) label_node_name)
                         (go_label (Container.Labels container)
                            label_initial_server_version)
                         (EndpointSettings.IPAddress eth0Net)
                         (EndpointSettings.GlobalIPv6Address eth0Net)])
      end
  end.

(** The loop [for clusterID, containers := range clusterMap], over the
    entries of the map in the order in which they are visited. *)
Fixpoint forClusters (ctx : Context.t)
    (entries : list (string * list Container.t)) (clusters : list Cluster.t)
  : prog (list Cluster.t) :=
  match entries with
  | [] => Ret clusters
  | (clusterID, containers) :: rest =>
      Do (Call (GetClusterMeta clusterID)) (λ '(meta, err),
        match nodesOf containers EmptyString [] with
        | Panics msg => Panic msg
        | Returns (clusterCreator, nodes) =>
            let clusterCreator :=
              if decide (clusterCreator = EmptyString) then "unknown"
              else clusterCreator in
            if negb (ContextIgnoreOwnership ctx)
               && bool_decide (clusterCreator ≠ ContextUser ctx)
            then forClusters ctx rest clusters
            else forClusters ctx rest
                   (clusters ++ [Cluster.mk clusterID clusterCreator
                                   (ClusterMeta.Owner meta)
                                   (ClusterMeta.Timeout meta) nodes])
        end)
  end.

(** [func getAllClusters(ctx)], returning a slice of pointers to [Cluster]
    and an error.  Go leaves the order of
    a [range] over a map open; the order of [map_to_list] stands for it. *)
Definition getAllClusters (ctx : Context.t) : prog (res (list Cluster.t)) :=
  listed ← call_ ContainerList;
  match listed with
  | Err err => Ret (Err err)
  | Ok containers =>
      clusters ← forClusters ctx (map_to_list (groupByCluster containers)) [];
      Ret (Ok clusters)
  end.

Definition err_not_found : error := "cluster not found".

(** [func getCluster(ctx, clusterID string)], returning a pointer to a
    [Cluster] and an error. *)
Definition getCluster (ctx : Context.t) (clusterID : string)
  : prog (res Cluster.t) :=
  r ← getAllClusters ctx;
  match r with
  | Err err => Ret (Err err)
  | Ok clusters =>
      match List.find (λ cluster, bool_decide (Cluster.ID cluster = clusterID))
              clusters with
      | Some cluster => Ret (Ok cluster)
      | None => Ret (Err err_not_found)
      end
  end.

(** The drain loop of a fan-out:
    [if err != nil && firstErr == nil { firstErr = err }]. *)
Definition firstError (errs : list (option error)) : option error :=
  foldl (λ firstErr err,
           match err, firstErr with
           | Some _, None => err
           | _, _ => firstErr
           end) None errs.

Definition err_forbidden : error := "cannot kill clusters you don't own".

(** [func killCluster(ctx, clusterID string) error] *)
Definition killCluster (ctx : Context.t) (clusterID : string)
  : prog (option error) :=
  r ← getCluster ctx clusterID;
  match r with
  | Err err => Ret (Some err)
  | Ok cluster =>
      if negb (ContextIgnoreOwnership ctx)
         && bool_decide (Cluster.Owner cluster ≠ ContextUser ctx)
      then Ret (Some err_forbidden)
      else
        let nodesToKill := Node.ContainerID <$> Cluster.Nodes cluster in
        errs ← fanOut (killNode ctx <$> nodesToKill);
        Ret (firstError errs)
  end.

(** [time.Hour], in nanoseconds. *)
Definition Hour : Z := 3600 * 1000000000.

Definition err_timeout_negative : error :=
  "must specify a valid timeout for the cluster".
Definition err_timeout_long : error :=
  "cannot allocate clusters for longer than 2 weeks".
Definition err_no_nodes : error :=
  "must specify at least a single node for the cluster".
Definition err_many_nodes : error :=
  "cannot allocate clusters with more than 10 nodes".

(** The loop that names the unnamed nodes [node_<index+1>]. *)
Definition nodesToAllocate (nodes : list NodeOptions.t) : list NodeOptions.t :=
  imap (λ nodeIdx node,
          if decide (NodeOptions.Name node = EmptyString) then
            NodeOptions.mk ("node_" +:+ pretty (S nodeIdx))
              (NodeOptions.Platform node) (NodeOptions.ServerVersion node)
              (NodeOptions.VersionInfo node)
          else node) nodes.

(** The goroutine [func(clusterID, node) { _, err := allocateNode(...);
    signal <- err }]. *)
Definition allocateWorker (cfg : Config) (ctx : Context.t) (clusterID : string)
    (timeoutTime : Z) (node : NodeOptions.t) : task (option error) :=
  r ← allocateNode cfg ctx clusterID timeoutTime node;
  Ret (match r with Ok _ => None | Err err => Some err end).

(** [allocateCluster] after its four checks. *)
Definition allocateChecked (cfg : Config) (ctx : Context.t)
    (nodes : list NodeOptions.t) : prog (res string) :=
  clusterID ← newRandomClusterID;
  now ← call_ TimeNow;
  let timeoutTime := now + 1 * Hour in
  let meta := ClusterMeta.mk (ContextUser ctx) timeoutTime in
  err ← call_ (CreateClusterMeta clusterID meta);
  match err with
  | Some err => Ret (Err err)
  | None =>
      errs ← fanOut (allocateWorker cfg ctx clusterID timeoutTime
                       <$> nodesToAllocate nodes);
      match firstError errs with
      | Some createError =>
          _ ← killCluster ctx clusterID;
          Ret (Err createError)
      | None => Ret (Ok clusterID)
      end
  end.

(** [func allocateCluster(ctx, opts ClusterOptions) (string, error)] *)
Definition allocateCluster (cfg : Config) (ctx : Context.t)
    (opts : ClusterOptions.t) : prog (res string) :=
  if decide (ClusterOptions.Timeout opts < 0) then Ret (Err err_timeout_negative)
  else if decide (ClusterOptions.Timeout opts > 2 * 7 * 24 * Hour) then
    Ret (Err err_timeout_long)
  else if decide (length (ClusterOptions.Nodes opts) = 0%nat) then
    Ret (Err err_no_nodes)
  else if decide (10 < length (ClusterOptions.Nodes opts))%nat then
    Ret (Err err_many_nodes)
  else allocateChecked cfg ctx (ClusterOptions.Nodes opts).

(** The function passed to [UpdateClusterMeta] by [refreshCluster]. *)
Definition refreshMeta (newMeta meta : ClusterMeta.t) : res ClusterMeta.t :=
  Ok (ClusterMeta.mk (ClusterMeta.Owner newMeta)
        (if decide (ClusterMeta.Timeout meta < ClusterMeta.Timeout newMeta)
         then ClusterMeta.Timeout newMeta else ClusterMeta.Timeout meta)).

(** [func refreshCluster(ctx, clusterID string, newTimeout time.Duration) error] *)
Definition refreshCluster (ctx : Context.t) (clusterID : string)
    (newTimeout : Z) : prog (option error) :=
  r ← getCluster ctx clusterID;
  match r with
  | Err err => Ret (Some err)
  | Ok _ =>
      now ← call_ TimeNow;
      let newMeta := ClusterMeta.mk (ContextUser ctx) (now + newTimeout) in
      '(_, err) ← call_ (GetClusterMeta clusterID);
      match err with
      | Some _ => call_ (CreateClusterMeta clusterID newMeta)
      | None => call_ (UpdateClusterMeta clusterID (refreshMeta newMeta))
      end
  end.

(** ** Notions the statements below use *)

(** Cutting a string at the first occurrence of a byte: the part before it,
    and the part after it when the byte occurs. *)
Fixpoint cutFirst (sep : ascii) (s : string) : string * option string :=
  match s with
  | EmptyString => (EmptyString, None)
  | String c s' =>
      if decide (c = sep) then (EmptyString, Some s')
      else let '(p, r) := cutFirst sep s' in (String c p, r)
  end.

Definition beforeFirst (sep : ascii) (s : string) : string := (cutFirst sep s).1.
Definition afterFirst (sep : ascii) (s : string) : option string := (cutFirst sep s).2.

(** The rows of the table of flavors. *)
Definition knownFlavors : list (Z * Z * string) :=
  [ (4, 0, "sherlock"); (4, 5, "watson");
    (5, 0, "spock"); (5, 5, "vulcan");
    (6, 0, "alice"); (6, 5, "mad-hatter");
    (7, 0, "cheshire-cat") ].

(** The value of the cluster-id label of a container, empty when it has
    none. *)
Definition clusterIDOf (c : Container.t) : string :=
  go_label (Container.Labels c) label_cluster_id.

Definition creatorOf (c : Container.t) : string :=
  go_label (Container.Labels c) label_creator.

(** A container carries the cluster-id label [clusterID].  The empty string
    is how the code reads a missing label, so it is no cluster id. *)
Definition inCluster (clusterID : string) (c : Container.t) : Prop :=
  clusterID ≠ EmptyString ∧ clusterIDOf c = clusterID.

#[global] Instance inCluster_dec clusterID c : Decision (inCluster clusterID c) :=
  (_ : Decision (clusterID ≠ EmptyString ∧ clusterIDOf c = clusterID)).

(** The containers of a listing that carry the label, in listing order. *)
Definition membersOf (clusterID : string) (cs : list Container.t)
  : list Container.t :=
  filter (inCluster clusterID) cs.

(** The creator derived for a group of containers: the first non-empty
    creator label in listing order, [unknown] when there is none. *)
Definition derivedCreator (members : list Container.t) : string :=
  match filter (λ s, s ≠ EmptyString) (creatorOf <$> members) with
  | [] => "unknown"
  | creator :: _ => creator
  end.

(** The ownership filter of the listing. *)
Definition visibleTo (ctx : Context.t) (creator : string) : Prop :=
  ContextIgnoreOwnership ctx = true ∨ creator = ContextUser ctx.

#[global] Instance visibleTo_dec ctx creator : Decision (visibleTo ctx creator) :=
  (_ : Decision (ContextIgnoreOwnership ctx = true ∨ creator = ContextUser ctx)).

(** What the runtime's listing has to satisfy for the listing loop not to
    panic: a labelled container has an id of at least 12 bytes (the
    runtime's ids have 64) and its network settings are present. *)
Definition wfContainer (c : Container.t) : Prop :=
  (12 ≤ String.length (Container.ID c))%nat ∧
  is_Some (Container.NetworkSettings c).

#[global] Instance wfContainer_dec c : Decision (wfContainer c) :=
  (_ : Decision ((12 ≤ String.length (Container.ID c))%nat ∧
                 is_Some (Container.NetworkSettings c))).

Definition wfListing (cs : list Container.t) : Prop :=
  Forall (λ c, clusterIDOf c ≠ EmptyString → wfContainer c) cs.

#[global] Instance wfListing_dec cs : Decision (wfListing cs) :=
  (_ : Decision (Forall (λ c, clusterIDOf c ≠ EmptyString → wfContainer c) cs)).

(** The node reported for a well-formed container. *)
Definition nodeOf (c : Container.t) : Node.t :=
  let eth0Net :=
    default fakeNet (Container.NetworkSettings c ≫= (.!! "macvlan0")) in
  Node.mk (String.substring 0 12 (Container.ID c)) (Container.State c)
    (go_label (Container.Labels c) label_node_name)
    (go_label (Container.Labels c) label_initial_server_version)
    (EndpointSettings.IPAddress eth0Net)
    (EndpointSettings.GlobalIPv6Address eth0Net).

(** The cluster reported for an entry of the cluster map. *)
Definition clusterOf (st : gmap string ClusterMeta.t)
    (entry : string * list Container.t) : Cluster.t :=
  let meta := (storeGet st entry.1).1 in
  Cluster.mk entry.1 (derivedCreator entry.2) (ClusterMeta.Owner meta)
    (ClusterMeta.Timeout meta) (nodeOf <$> entry.2).

Definition visibleEntries (ctx : Context.t)
    (entries : list (string * list Container.t))
  : list (string * list Container.t) :=
  filter (λ entry, visibleTo ctx (derivedCreator entry.2)) entries.

(** The state after the calls [cs]: the store as given, one step each. *)
Definition after (cs : list call) (st : gmap string ClusterMeta.t) (w : World)
  : World :=
  {| store := st; tick := (tick w + length cs)%nat; trace := trace w ++ cs |}.

(** The calls [getAllClusters] makes on a listing [cs]. *)
Definition listingCalls (cs : list Container.t) : list call :=
  ContainerList ::
    ((λ entry, GetClusterMeta entry.1) <$> map_to_list (groupByCluster cs)).

Definition isStop (c : call) : Prop :=
  match c with ContainerStop _ => True | _ => False end.

(** The clusters [getAllClusters] reports on a listing [cs], and the one
    [getCluster] finds among them. *)
Definition listedClusters (ctx : Context.t) (st : gmap string ClusterMeta.t)
    (cs : list Container.t) : list Cluster.t :=
  clusterOf st <$> visibleEntries ctx (map_to_list (groupByCluster cs)).

(** A cluster exists for a caller: some listed container carries its id,
    and the ownership filter lets it through. *)
Definition existsFor (ctx : Context.t) (cs : list Container.t)
    (clusterID : string) : Prop :=
  (∃ c, c ∈ cs ∧ inCluster clusterID c) ∧
  visibleTo ctx (derivedCreator (membersOf clusterID cs)).

Definition lookupCluster (ctx : Context.t) (st : gmap string ClusterMeta.t)
    (cs : list Container.t) (clusterID : string) : option Cluster.t :=
  if decide (membersOf clusterID cs ≠ [] ∧
             visibleTo ctx (derivedCreator (membersOf clusterID cs)))
  then Some (clusterOf st (clusterID, membersOf clusterID cs))
  else None.

(** The variable [clusterCreator] after the loop over [members], when it
    held [acc] before. *)
Definition creatorAcc (acc : string) (members : list Container.t) : string :=
  match filter (λ s, s ≠ EmptyString) (acc :: (creatorOf <$> members)) with
  | [] => EmptyString
  | creator :: _ => creator
  end.

(** Sequencing of runs: go on after a return, stop at a crash. *)
Definition chain {A B} (r : exec A * World) (k : A → World → exec B * World)
  : exec B * World :=
  match r with
  | (Done a, w) => k a w
  | (Crashed msg, w) => (Crashed msg, w)
  | (OutOfFuel, w) => (OutOfFuel, w)
  end.

(** A run whose returned value is dropped and replaced by [b], as in
    [killCluster(ctx, clusterID); return "", createError]. *)
Definition discard {A B} (b : B) (r : exec A * World) : exec B * World :=
  chain r (λ _ w, (Done b, w)).

(** A goroutine makes at most [n] calls. *)
Fixpoint bounded {A} (n : nat) (t : task A) : Prop :=
  match t with
  | Do c k =>
      match n with
      | O => False
      | S n' => ∀ r, bounded n' (k r)
      end
  | _ => True
  end.

(** Every action of a program satisfies [P]. *)
Fixpoint allActions {action} {result : action → Type} {A}
    (P : action → Prop) (p : free result A) : Prop :=
  match p with
  | Do c k => P c ∧ ∀ r, allActions P (k r)
  | _ => True
  end.

(** The calls that write to the metadata store. *)
Definition writes (c : call) : Prop :=
  match c with
  | CreateClusterMeta _ _ | UpdateClusterMeta _ _ => True
  | _ => False
  end.

Definition taskReadsOnly {A} (t : task A) : Prop :=
  allActions (λ c, ¬ writes c) t.

Definition stepReadsOnly (s : step) : Prop :=
  match s with
  | Call c => ¬ writes c
  | FanOut ws => Forall taskReadsOnly ws
  end.

Definition readsOnly {A} (p : prog A) : Prop := allActions stepReadsOnly p.

(** The first three calls of an allocation started in state [w]: the
    cluster id drawn, the record written, and the state once it is
    written. *)
Definition newClusterID (env : Env) (w : World) : string :=
  String.substring 0 8 (proj1_sig (answer env (tick w) NewRandomUUID)).

Definition newMeta (env : Env) (ctx : Context.t) (w : World) : ClusterMeta.t :=
  ClusterMeta.mk (ContextUser ctx) (answer env (S (tick w)) TimeNow + 1 * Hour).

Definition createCall (env : Env) (ctx : Context.t) (w : World) : call :=
  CreateClusterMeta (newClusterID env w) (newMeta env ctx w).

Definition createFault (env : Env) (ctx : Context.t) (w : World) : option error :=
  answer env (S (S (tick w))) (createCall env ctx w).

Definition prologue (env : Env) (ctx : Context.t) (w : World) : list call :=
  [NewRandomUUID; TimeNow; createCall env ctx w].

Definition created (env : Env) (ctx : Context.t) (w : World) : World :=
  after (prologue env ctx w)
    (<[newClusterID env w := newMeta env ctx w]> (store w)) w.

(** The goroutines of that allocation. *)
Definition workers (cfg : Config) (env : Env) (ctx : Context.t)
    (nodes : list NodeOptions.t) (w : World) : list (task (option error)) :=
  allocateWorker cfg ctx (newClusterID env w)
    (ClusterMeta.Timeout (newMeta env ctx w)) <$> nodesToAllocate nodes.

Definition fourteenDays : Z := 2 * 7 * 24 * Hour.

(** The bounds [allocateCluster] checks. *)
Definition withinBounds (opts : ClusterOptions.t) : Prop :=
  0 ≤ ClusterOptions.Timeout opts ≤ fourteenDays ∧
  (1 ≤ length (ClusterOptions.Nodes opts) ≤ 10)%nat.

(** The bounds as the specification words them: the timeout is positive. *)
Definition specBounds (opts : ClusterOptions.t) : Prop :=
  0 < ClusterOptions.Timeout opts ≤ fourteenDays ∧
  (1 ≤ length (ClusterOptions.Nodes opts) ≤ 10)%nat.

(** The four errors of the checks. *)
Definition isInvalidRequest (e : error) : Prop :=
  e ∈ [err_timeout_negative; err_timeout_long; err_no_nodes; err_many_nodes].

(** The request is refused as invalid and nothing was called: the state is
    the one before the call. *)
Definition rejects (cfg : Config) (env : Env) (fuel : nat) (ctx : Context.t)
    (opts : ClusterOptions.t) (w : World) : Prop :=
  ∃ e, isInvalidRequest e ∧
       run env fuel (allocateCluster cfg ctx opts) w = (Done (Err e), w).

(** ** A concrete environment for the examples *)

Module Sample.
Definition uuid : UUIDString :=
  exist _ "deadbeef-0000-4000-8000-000000000000" eq_refl.

Definition container (id clusterID creator : string) : Container.t :=
  Container.mk id "running"
    {[ label_cluster_id := clusterID; label_creator := creator ]}
    (Some ∅).

(** Two containers of cluster deadbeef created by alice, one of cluster
    cafecafe created by bob, and one without labels. *)
Definition listing : list Container.t :=
  [ container "1111111111111111" "deadbeef" "alice";
    container "2222222222222222" "deadbeef" "alice";
    container "3333333333333333" "cafecafe" "bob";
    Container.mk "4444" "exited" ∅ None ].

(** The runtime lists [listing], creation of a container fails at the
    steps [failing] and succeeds otherwise, everything else succeeds, and
    the clock reads 1000. *)
Definition answers (failing : nat → bool) (t : nat) (c : call) : reply c :=
  match c with
  | ContainerList => Ok listing
  | ContainerCreate _ _ _ name =>
      if failing t then Err "no space left on device"
      else Ok ("0000000000000000-" +:+ name)
  | ContainerStart _ => None
  | ContainerInspect _ =>
      Ok (Some {[ NetworkName := EndpointSettings.mk "10.0.0.7" EmptyString ]})
  | ContainerStop _ => None
  | GetClusterMeta _ => (zeroMeta, None)
  | CreateClusterMeta _ _ => None
  | UpdateClusterMeta _ _ => None
  | TimeNow => 1000
  | NewRandomUUID => uuid
  | RestRetryer _ _ _ => (EmptyString, None)
  end.

(** The scheduler takes the goroutines in turn. *)
Definition env (failing : nat → bool) : Env :=
  {| answer := answers failing; sched := λ t, t |}.

Definition quiet : Env := env (λ _, false).
Definition thirdCreateFails : Env := env (λ t, bool_decide (t = 5%nat)).

Definition cfg : Config :=
  {| dockerRegistry := "registry.local"; dnsSvcHost := EmptyString;
     helperDomain := "couchbase.com" |}.

Definition alice : Context.t := Context.mk "alice" false.
Definition bob : Context.t := Context.mk "bob" false.

Definition node : NodeOptions.t :=
  NodeOptions.mk EmptyString "centos7" "6.5.1-2134"
    (Some (NodeVersion.mk "6.5.1" "mad-hatter" "2134")).

Definition threeNodes (timeout : Z) : ClusterOptions.t :=
  ClusterOptions.mk timeout [node; node; node].

Definition start (st : gmap string ClusterMeta.t) : World :=
  {| store := st; tick := 0; trace := [] |}.

Definition ownedBy (owner : string) (timeout : Z) : gmap string ClusterMeta.t :=
  {[ "deadbeef" := ClusterMeta.mk owner timeout ]}.
End Sample.

(** ** The rest of [nodes.go], and more notions for the statements *)

(** [func (nv *NodeVersion) toURL() string]; [cluster.ReleaseUrl] and
    [cluster.BuildUrl] are constants of the [cluster] package. *)
Definition toURL (releaseUrl buildUrl : string) (nv : NodeVersion.t) : string :=
  if decide (NodeVersion.Build nv = EmptyString) then
    releaseUrl +:+ NodeVersion.Version nv
  else buildUrl +:+ NodeVersion.Flavor nv +:+ "/" +:+ NodeVersion.Build nv.

(** The majors and minors for which the table has a flavor. *)
Definition supported (major minor : Z) : Prop :=
  4 ≤ major ≤ 6 ∨ (major = 7 ∧ minor < 5).

(** One goroutine, seen from outside: the calls it made, in order, each
    answered as the environment answers that call in some state, and the
    error it sent. *)
Fixpoint taskRun (env : Env) (t : task (option error)) (calls : list call)
    (err : option error) : Prop :=
  match t with
  | Ret e => calls = [] ∧ err = e
  | Panic _ => False
  | Do c k =>
      ∃ w rest, calls = c :: rest ∧ taskRun env (k (handle env c w).1) rest err
  end.

(** Every call a program can make satisfies [P]. *)
Definition callsOnly {A} (P : call → Prop) (p : prog A) : Prop :=
  allActions (λ s, match s with
                   | Call c => P c
                   | FanOut ws => Forall (allActions P) ws
                   end) p.

(** A program has no panic in it. *)
Fixpoint neverPanics {action} {result : action → Type} {A}
    (p : free result A) : Prop :=
  match p with
  | Ret _ => True
  | Panic _ => False
  | Do c k => ∀ r, neverPanics (k r)
  end.

(** The id under which a container appears as a node. *)
Definition shortID (c : Container.t) : string :=
  String.substring 0 12 (Container.ID c).

(** The owner the listing reports for a cluster: the one recorded in the
    store, empty without a record. *)
Definition ownerIn (st : gmap string ClusterMeta.t) (clusterID : string) : string :=
  ClusterMeta.Owner (storeGet st clusterID).1.

(** The calls a refresh of [clusterID] may make. *)
Definition refreshCall (clusterID : string) (c : call) : Prop :=
  match c with
  | ContainerList | GetClusterMeta _ | TimeNow => True
  | CreateClusterMeta k _ | UpdateClusterMeta k _ => k = clusterID
  | _ => False
  end.

(** The name in a request to create a container. *)
Definition createdName (c : call) : option string :=
  match c with
  | ContainerCreate _ _ _ name => Some name
  | _ => None
  end.

(** The labels in a request to create a container carry the cluster id and
    the creator. *)
Definition labelledFor (clusterID creator : string) (c : call) : Prop :=
  match c with
  | ContainerCreate _ labels _ _ =>
      go_label labels label_cluster_id = clusterID ∧
      go_label labels label_creator = creator
  | _ => True
  end.

(** The calls of a goroutine that allocates a node. *)
Definition workerCall (c : call) : Prop :=
  match c with
  | ContainerCreate _ _ _ _ | ContainerStart _ | ContainerInspect _
  | RestRetryer _ _ _ => True
  | _ => False
  end.

(** The name [allocateNode] gives the container of a node. *)
Definition containerName (clusterID : string) (node : NodeOptions.t) : string :=
  "dynclsr-" +:+ clusterID +:+ "-" +:+ NodeOptions.Name node.

(** The request [allocateNode] sends to create the container of a node
    whose version descriptor is [nv]. *)
Definition createRequest (cfg : Config) (ctx : Context.t) (clusterID : string)
    (node : NodeOptions.t) (nv : NodeVersion.t) : call :=
  ContainerCreate (toImageName (dockerRegistry cfg) nv)
    {[ label_creator := ContextUser ctx;
       label_cluster_id := clusterID;
       label_node_name := NodeOptions.Name node;
       label_initial_server_version := NodeOptions.ServerVersion node ]}
    (if decide (dnsSvcHost cfg ≠ EmptyString) then [dnsSvcHost cfg] else [])
    (containerName clusterID node).

(** A registration of the host name of a node's container with the DNS
    service. *)
Definition isRegistration (cfg : Config) (clusterID : string)
    (node : NodeOptions.t) (c : call) : Prop :=
  match c with
  | RestRetryer host path _ =>
      host = dnsSvcHost cfg ∧
      path = helperDomain cfg +:+ "/" +:+ containerName clusterID node
               +:+ ".couchbase.com"
  | _ => False
  end.

(** ** More sample data *)

Module Scenario.
(** The environment of [Sample.quiet], except that the runtime answers the
    listing with [listed] and the store answers the creation of a record
    with [storeFault]. *)
Definition envWith (listed : res (list Container.t))
    (storeFault : option error) : Env :=
  {| answer := λ t c,
       match c as c0 return reply c0 with
       | ContainerList => listed
       | CreateClusterMeta _ _ => storeFault
       | c0 => Sample.answers (λ _, false) t c0
       end;
     sched := λ t, t |}.

Definition listingFails : Env :=
  envWith (Err "cannot connect to the docker daemon") None.

Definition storeFails : Env :=
  envWith (Ok Sample.listing) (Some "store is read-only").

(** A labelled container whose id has four bytes. *)
Definition truncated : list Container.t :=
  [ Sample.container "4444" "deadbeef" "alice" ].

(** A cluster whose only container has no creator label. *)
Definition orphans : list Container.t :=
  [ Container.mk "5555555555555555" "running"
      {[ label_cluster_id := "0ddba11" ]} (Some ∅) ].

Definition anonymous : Context.t := Context.mk EmptyString false.
Definition unknown : Context.t := Context.mk "unknown" false.

Definition cfgDns : Config :=
  {| dockerRegistry := "registry.local"; dnsSvcHost := "dns.local";
     helperDomain := "couchbase.com" |}.

(** A node whose version was never resolved. *)
Definition unresolved : NodeOptions.t :=
  NodeOptions.mk "n1" "centos7" "6.5.1" None.
End Scenario.

(** ** Sample data for a failed allocation by a caller without identity *)

Module Rollback.
(** Two containers of cluster deadbeef, labelled as [allocateNode] labels
    them for a caller whose identity is empty. *)
Definition unclaimed : list Container.t :=
  [ Sample.container "1111111111111111" "deadbeef" EmptyString;
    Sample.container "2222222222222222" "deadbeef" EmptyString ].

(** The environment of [Sample.thirdCreateFails], except that the runtime
    lists [listed]. *)
Definition thirdCreateFails (listed : list Container.t) : Env :=
  {| answer := λ t c,
       match c as c0 return reply c0 with
       | ContainerList => Ok listed
       | c0 => Sample.answers (λ t, bool_decide (t = 5%nat)) t c0
       end;
     sched := λ t, t |}.

(** The calls to stop the containers [members]. *)
Definition stopsOf (members : list Container.t) : list call :=
  (λ c, ContainerStop (shortID c)) <$> members.
End Rollback.

#[local] Arguments killCluster : simpl never.
#[local] Arguments getCluster : simpl never.
#[local] Arguments getAllClusters : simpl never.
#[local] Arguments allocateWorker : simpl never.

(** * Properties *)

(** ** Splitting *)

Lemma strings_Split_cut sep s :
  strings_Split sep s =
    beforeFirst sep s ::
      match afterFirst sep s with
      | None => []
      | Some r => strings_Split sep r
      end.
Proof.
  unfold beforeFirst, afterFirst.
  induction s as [|c s IH]; simpl; [done|].
  case_decide; [done|].
  rewrite IH. by destruct (cutFirst sep s) as [p [r|]].
Qed.

Lemma strings_Split_head sep s :
  strings_Split sep s !! 0%nat = Some (beforeFirst sep s).
Proof. by rewrite strings_Split_cut. Qed.

Lemma strings_Split_second sep s :
  strings_Split sep s !! 1%nat = beforeFirst sep <$> afterFirst sep s.
Proof.
  rewrite strings_Split_cut. destruct (afterFirst sep s) as [r|]; simpl; [|done].
  apply strings_Split_head.
Qed.

Lemma strings_Split_length sep s :
  (1 < length (strings_Split sep s))%nat ↔ is_Some (afterFirst sep s).
Proof.
  rewrite strings_Split_cut. destruct (afterFirst sep s) as [r|]; simpl.
  - split; [eauto|]. intros _. rewrite strings_Split_cut. simpl. lia.
  - split; [lia|]. by intros [? ?].
Qed.

Lemma beforeFirst_no_sep sep s : afterFirst sep s = None → beforeFirst sep s = s.
Proof.
  unfold beforeFirst, afterFirst.
  induction s as [|c s IH]; simpl; [done|].
  case_decide; [done|].
  destruct (cutFirst sep s) as [p r]; simpl in *. intros ->. by rewrite IH.
Qed.

(** ** The version resolver *)

Lemma lookupFlavor_known major minor flavor :
  lookupFlavor major minor = Some flavor ↔ (major, minor, flavor) ∈ knownFlavors.
Proof.
  unfold lookupFlavor, versionToFlavor, knownFlavors.
  rewrite !elem_of_cons, elem_of_nil.
  split.
  - rewrite !lookup_insert, lookup_singleton.
    repeat case_decide; simplify_eq/=;
      rewrite ?lookup_insert, ?lookup_singleton;
      repeat case_decide; simplify_eq/=; try naive_solver.
  - intros H. repeat (destruct H as [H|H]; [by simplify_eq|]). done.
Qed.

(** [flavorFromVersion] with its two index expressions resolved. *)
Lemma flavorFromVersion_cases base :
  flavorFromVersion base =
    match strconv_Atoi (beforeFirst "."%char base) with
    | None => Returns (Err err_major)
    | Some major =>
        match afterFirst "."%char base with
        | None => Panics index_out_of_range
        | Some rest =>
            match strconv_Atoi (beforeFirst "."%char rest) with
            | None => Returns (Err err_minor)
            | Some minor =>
                Returns (match lookupFlavor major (floorMinor minor) with
                         | Some flavor => Ok flavor
                         | None => Err (err_flavor major (floorMinor minor))
                         end)
            end
        end
    end.
Proof.
  unfold flavorFromVersion, go_index.
  rewrite strings_Split_head, strings_Split_second. simpl.
  destruct (strconv_Atoi (beforeFirst _ base)); [|done].
  destruct (afterFirst _ base) as [rest|]; simpl; [|done].
  destruct (strconv_Atoi (beforeFirst _ rest)); [|done].
  by destruct (lookupFlavor _ _).
Qed.

(** [parseServerVersion] with its two index expressions resolved. *)
Lemma parseServerVersion_cases version :
  parseServerVersion version =
    (r ←! flavorFromVersion (beforeFirst "-"%char version);
     match r with
     | Err e => Returns (Err e)
     | Ok flavor =>
         Returns (Ok (NodeVersion.mk (beforeFirst "-"%char version) flavor
                        match afterFirst "-"%char version with
                        | None => EmptyString
                        | Some rest => beforeFirst "-"%char rest
                        end))
     end).
Proof.
  unfold parseServerVersion, go_index.
  rewrite strings_Split_head, strings_Split_second. simpl.
  destruct (flavorFromVersion _) as [[flavor|e]|msg]; simpl; [|done..].
  case_decide as Hlen; rewrite strings_Split_length in Hlen.
  - by destruct Hlen as [rest ->].
  - destruct (afterFirst _ version); [|done]. by destruct Hlen.
Qed.

(** C6.  When the two leading dot-separated components of the base version
    are integers [major] and [minor], the minor is floored to 0 below 5 and
    to 5 otherwise; if the table of flavors has a row for the major and the
    floored minor, the resolver returns that row's flavor, and if it has
    none the resolver fails with the unknown-flavor error. *)
Theorem resolve_flavor_by_table version a b rest major minor :
  strings_Split "."%char (beforeFirst "-"%char version) = a :: b :: rest →
  strconv_Atoi a = Some major →
  strconv_Atoi b = Some minor →
  floorMinor minor = (if decide (minor < 5) then 0 else 5) ∧
  match lookupFlavor major (floorMinor minor) with
  | Some flavor =>
      (major, floorMinor minor, flavor) ∈ knownFlavors ∧
      flavorFromVersion (beforeFirst "-"%char version) = Returns (Ok flavor) ∧
      ∃ build, parseServerVersion version =
                 Returns (Ok (NodeVersion.mk (beforeFirst "-"%char version)
                                flavor build))
  | None =>
      (∀ flavor, (major, floorMinor minor, flavor) ∉ knownFlavors) ∧
      flavorFromVersion (beforeFirst "-"%char version) =
        Returns (Err (err_flavor major (floorMinor minor))) ∧
      parseServerVersion version =
        Returns (Err (err_flavor major (floorMinor minor)))
  end.
Proof.
  intros Hsplit Ha Hb.
  split; [unfold floorMinor; repeat case_decide; lia|].
  assert (Hf : flavorFromVersion (beforeFirst "-"%char version) =
               Returns (match lookupFlavor major (floorMinor minor) with
                        | Some flavor => Ok flavor
                        | None => Err (err_flavor major (floorMinor minor))
                        end)).
  { unfold flavorFromVersion. rewrite Hsplit. simpl. rewrite Ha, Hb.
    by destruct (lookupFlavor _ _). }
  rewrite parseServerVersion_cases, Hf.
  destruct (lookupFlavor major (floorMinor minor)) as [flavor|] eqn:Hl; simpl.
  - split; [by apply lookupFlavor_known|]. eauto.
  - split; [|done]. intros flavor Hin%lookupFlavor_known. congruence.
Qed.

Lemma resolve_flavor_by_table_witness :
  (floorMinor 5 = 5 ∧
   flavorFromVersion "6.5.1" = Returns (Ok "mad-hatter")) ∧
  (floorMinor 2 = 0 ∧
   parseServerVersion "8.2.0-77" = Returns (Err "8.0 is not a recognised flavor")).
Proof.
  split.
  - pose proof (resolve_flavor_by_table "6.5.1-2134" "6" "5" ["1"] 6 5
                  eq_refl eq_refl eq_refl) as [H1 H2].
    split; [done|]. apply H2.
  - pose proof (resolve_flavor_by_table "8.2.0-77" "8" "2" ["0"] 8 2
                  eq_refl eq_refl eq_refl) as [H1 H2].
    split; [done|]. apply H2.
Defined.

(** C7, as stated, fails: the build identifier is not the entire remainder
    after the first dash.  [strings.Split] cuts at every dash and
    [versionParts[1]] is the second piece only. *)
Lemma build_is_not_whole_remainder :
  ¬ (∀ version nv rest,
       parseServerVersion version = Returns (Ok nv) →
       afterFirst "-"%char version = Some rest →
       NodeVersion.Build nv = rest).
Proof.
  intros H.
  specialize (H "6.5.1-2134-rc1" (NodeVersion.mk "6.5.1" "mad-hatter" "2134")
                "2134-rc1" eq_refl eq_refl).
  discriminate H.
Qed.

(** C7, amended.  The version is the prefix before the first dash; the
    build identifier is the piece between the first dash and the next one
    (the entire remainder when the remainder has no dash, empty when the
    input has no dash); the tag name of a result with an empty build, so of
    every input without a dash, is the version followed by [.centos7]; and
    the input 6.5.1-2134 resolves to version 6.5.1, flavor mad-hatter,
    build 2134, tag name 6.5.1-2134.centos7. *)
Theorem parseServerVersion_parts version nv :
  parseServerVersion version = Returns (Ok nv) →
  NodeVersion.Version nv = beforeFirst "-"%char version ∧
  NodeVersion.Build nv =
    match afterFirst "-"%char version with
    | None => EmptyString
    | Some rest => beforeFirst "-"%char rest
    end ∧
  (∀ rest, afterFirst "-"%char version = Some rest →
           afterFirst "-"%char rest = None → NodeVersion.Build nv = rest) ∧
  (NodeVersion.Build nv = EmptyString →
   toTagName nv = NodeVersion.Version nv +:+ ".centos7") ∧
  (afterFirst "-"%char version = None → toTagName nv = version +:+ ".centos7") ∧
  parseServerVersion "6.5.1-2134" =
    Returns (Ok (NodeVersion.mk "6.5.1" "mad-hatter" "2134")) ∧
  toTagName (NodeVersion.mk "6.5.1" "mad-hatter" "2134") = "6.5.1-2134.centos7".
Proof.
  rewrite parseServerVersion_cases.
  destruct (flavorFromVersion _) as [[flavor|e]|msg]; simpl; [|done..].
  intros [= <-]. simpl.
  split_and!; try done.
  - intros rest -> Hrest. by apply beforeFirst_no_sep.
  - intros Hb. unfold toTagName. simpl. by rewrite decide_True.
  - intros Hnone. unfold toTagName. simpl. rewrite Hnone.
    by rewrite (beforeFirst_no_sep _ _ Hnone).
Qed.

Lemma parseServerVersion_parts_witness :
  NodeVersion.Version (NodeVersion.mk "7.0.0" "cheshire-cat" EmptyString) = "7.0.0" ∧
  toTagName (NodeVersion.mk "7.0.0" "cheshire-cat" EmptyString) = "7.0.0.centos7".
Proof.
  pose proof (parseServerVersion_parts "7.0.0"
                (NodeVersion.mk "7.0.0" "cheshire-cat" EmptyString) eq_refl)
    as (H1 & _ & _ & _ & H5 & _).
  split; [exact H1|]. apply H5. reflexivity.
Defined.

(** C9, as stated, fails: a base version without a dot does not always run
    into the unguarded index; when its only component is not an integer the
    major-version error is returned first. *)
Lemma no_dot_is_not_always_out_of_bounds :
  ¬ (∀ base, afterFirst "."%char base = None →
             flavorFromVersion base = Panics index_out_of_range).
Proof.
  intros H. specialize (H "abc" eq_refl). discriminate H.
Qed.

(** C9, amended.  For a base version without a dot, the access to the
    second component is out of bounds exactly when the whole base is an
    integer, and no error value is returned then; when the base is not an
    integer the major-version error is returned before the access.  For a
    base version with a dot both accesses are in bounds, the function
    returns, and it returns the major (minor) conversion error exactly
    when the first (second) component is rejected by [strconv.Atoi]. *)
Theorem flavorFromVersion_bounds base :
  is_Some (strings_Split "."%char base !! 0%nat) ∧
  match afterFirst "."%char base with
  | None =>
      strings_Split "."%char base !! 1%nat = None ∧
      match strconv_Atoi base with
      | Some _ => flavorFromVersion base = Panics index_out_of_range
      | None => flavorFromVersion base = Returns (Err err_major)
      end
  | Some rest =>
      is_Some (strings_Split "."%char base !! 1%nat) ∧
      flavorFromVersion base =
        Returns
          match strconv_Atoi (beforeFirst "."%char base) with
          | None => Err err_major
          | Some major =>
              match strconv_Atoi (beforeFirst "."%char rest) with
              | None => Err err_minor
              | Some minor =>
                  match lookupFlavor major (floorMinor minor) with
                  | Some flavor => Ok flavor
                  | None => Err (err_flavor major (floorMinor minor))
                  end
              end
          end
  end.
Proof.
  split; [rewrite strings_Split_head; eauto|].
  rewrite flavorFromVersion_cases, strings_Split_second.
  destruct (afterFirst "."%char base) as [rest|] eqn:Hdot; simpl.
  - split; [eauto|].
    destruct (strconv_Atoi (beforeFirst _ base)); [|done].
    by destruct (strconv_Atoi (beforeFirst _ rest)).
  - split; [done|]. rewrite (beforeFirst_no_sep _ _ Hdot).
    by destruct (strconv_Atoi base).
Qed.

(** ** Running programs *)

Lemma run_bind env fuel {A B} (p : prog A) (f : A → prog B) w :
  run env fuel (p ≫= f) w = chain (run env fuel p w) (λ a w', run env fuel (f a) w').
Proof.
  revert w. induction p as [a|msg|s k IH]; intros w; simpl; try done.
  destruct s as [c|workers]; simpl.
  - destruct (handle env c w) as [r w']. apply IH.
  - destruct (runPool env fuel workers [] w) as [[errs|msg|] w']; simpl; try done.
    apply IH.
Qed.

Lemma run_call env fuel c w :
  run env fuel (call_ c) w = (Done (handle env c w).1, (handle env c w).2).
Proof. unfold call_. simpl. by destruct (handle env c w). Qed.

Lemma handle_trace env c w : trace (handle env c w).2 = trace w ++ [c].
Proof.
  unfold handle. destruct c; simpl; try done.
  - by destruct (storeCreate _ _ _ _).
  - by destruct (storeUpdate _ _ _ _).
Qed.

(** ** The listing *)

Lemma go_prefix_ok n s :
  (n ≤ String.length s)%nat → go_prefix n s = Returns (String.substring 0 n s).
Proof. intros H. unfold go_prefix. by rewrite decide_True. Qed.

Lemma nodesOf_wf members creator nodes :
  Forall wfContainer members →
  nodesOf members creator nodes =
    Returns (creatorAcc creator members, nodes ++ (nodeOf <$> members)).
Proof.
  intros Hwf. revert creator nodes.
  induction Hwf as [|c members [Hid [nets Hnets]] _ IH]; intros creator nodes; simpl.
  - rewrite app_nil_r. unfold creatorAcc. simpl.
    rewrite filter_cons, filter_nil.
    destruct (decide (creator = EmptyString)) as [->|Hne].
    + by rewrite decide_False by (by intros []).
    + by rewrite decide_True.
  - rewrite Hnets, go_prefix_ok by done. simpl. rewrite IH.
    f_equal. f_equal.
    + unfold creatorAcc. simpl. rewrite !filter_cons.
      fold (creatorOf c).
      destruct (decide (creator = EmptyString)) as [->|Hne]; simpl;
        repeat case_decide; try done; naive_solver.
    + rewrite <-app_assoc. simpl. do 2 f_equal.
      unfold nodeOf. by rewrite Hnets.
Qed.

Lemma creatorAcc_derived members :
  (if decide (creatorAcc EmptyString members = EmptyString) then "unknown"
   else creatorAcc EmptyString members) = derivedCreator members.
Proof.
  unfold creatorAcc, derivedCreator. rewrite filter_cons.
  rewrite (decide_False (P := EmptyString ≠ EmptyString)) by auto.
  destruct (filter _ (creatorOf <$> members)) as [|x l] eqn:Hf; [done|].
  assert (x ∈ filter (λ s, s ≠ EmptyString) (creatorOf <$> members)) as Hx
    by (rewrite Hf; left).
  apply list_elem_of_filter in Hx as [Hx _]. by rewrite decide_False.
Qed.

Lemma derivedCreator_nonempty members : derivedCreator members ≠ EmptyString.
Proof.
  unfold derivedCreator.
  destruct (filter _ (creatorOf <$> members)) as [|x l] eqn:Hf; [done|].
  assert (x ∈ filter (λ s, s ≠ EmptyString) (creatorOf <$> members)) as Hx
    by (rewrite Hf; left).
  by apply list_elem_of_filter in Hx as [Hx _].
Qed.

Lemma membersOf_snoc clusterID cs c :
  membersOf clusterID (cs ++ [c]) =
    membersOf clusterID cs ++ (if decide (inCluster clusterID c) then [c] else []).
Proof.
  unfold membersOf. by rewrite filter_app.
Qed.

Lemma groupByCluster_lookup cs clusterID :
  groupByCluster cs !! clusterID =
    match membersOf clusterID cs with
    | [] => None
    | members => Some members
    end.
Proof.
  unfold groupByCluster.
  induction cs as [|c cs IH] using rev_ind; [done|].
  rewrite foldl_app. simpl. rewrite membersOf_snoc.
  unfold groupStep at 1. fold (clusterIDOf c).
  case_decide as Hlbl.
  - rewrite lookup_insert. case_decide as Heq.
    + subst clusterID. rewrite IH. simpl.
      rewrite decide_True by done.
      by destruct (membersOf (clusterIDOf c) cs).
    + rewrite IH. rewrite decide_False by (intros [_ ?]; done).
      by rewrite app_nil_r.
  - rewrite IH. rewrite decide_False.
    + by rewrite app_nil_r.
    + intros [H1 H2]. congruence.
Qed.

Lemma membersOf_nonempty clusterID cs :
  membersOf clusterID cs ≠ [] ↔ ∃ c, c ∈ cs ∧ inCluster clusterID c.
Proof.
  unfold membersOf. split.
  - intros H. destruct (filter _ cs) as [|c l] eqn:Hf; [done|].
    assert (c ∈ filter (inCluster clusterID) cs) as [? ?]%list_elem_of_filter
      by (rewrite Hf; left).
    by exists c.
  - intros (c & Hc & Hin) Hnil.
    assert (c ∈ filter (inCluster clusterID) cs) as H
      by (by apply list_elem_of_filter).
    rewrite Hnil in H. by apply elem_of_nil in H.
Qed.

Lemma no_members clusterID cs :
  membersOf clusterID cs = [] → ¬ ∃ c, c ∈ cs ∧ inCluster clusterID c.
Proof. intros Hnil Hex. by apply membersOf_nonempty in Hex. Qed.

Lemma groupByCluster_entry cs clusterID members :
  (clusterID, members) ∈ map_to_list (groupByCluster cs) ↔
  members = membersOf clusterID cs ∧ members ≠ [].
Proof.
  rewrite elem_of_map_to_list, groupByCluster_lookup.
  destruct (membersOf clusterID cs) as [|c l]; split.
  - done.
  - by intros [-> ?].
  - by intros [= <-].
  - by intros [-> _].
Qed.

Lemma wfListing_members cs clusterID :
  wfListing cs → Forall wfContainer (membersOf clusterID cs).
Proof.
  intros Hwf. apply Forall_forall. intros c [[Hne Hc] Hin]%list_elem_of_filter.
  unfold wfListing in Hwf. rewrite Forall_forall in Hwf.
  apply Hwf; [done|]. by rewrite Hc.
Qed.

Lemma forClusters_run env fuel ctx entries clusters w :
  Forall (λ entry, Forall wfContainer entry.2) entries →
  run env fuel (forClusters ctx entries clusters) w =
    (Done (clusters ++ (clusterOf (store w) <$> visibleEntries ctx entries)),
     after ((λ entry, GetClusterMeta entry.1) <$> entries) (store w) w).
Proof.
  intros Hwf. revert clusters w.
  induction Hwf as [|[clusterID members] entries Hm _ IH]; intros clusters w.
  - simpl. rewrite app_nil_r. unfold after. simpl.
    rewrite app_nil_r, Nat.add_0_r. by destruct w.
  - simpl. simpl in Hm. rewrite (nodesOf_wf _ _ _ Hm). simpl.
    rewrite creatorAcc_derived.
    unfold visibleEntries. rewrite filter_cons. simpl.
    set (w1 := advance _ _ w).
    assert (Hafter : ∀ l, after l (store w1) w1 =
              after (GetClusterMeta clusterID :: l) (store w) w).
    { intros l. unfold after, w1, advance. simpl. f_equal; [lia|].
      by rewrite <-app_assoc. }
    assert (Hcl : clusterOf (store w) (clusterID, members) =
              Cluster.mk clusterID (derivedCreator members)
                (ClusterMeta.Owner (storeGet (store w) clusterID).1)
                (ClusterMeta.Timeout (storeGet (store w) clusterID).1)
                (nodeOf <$> members)) by done.
    destruct (storeGet (store w) clusterID) as [meta err].
    destruct (ContextIgnoreOwnership ctx) eqn:Hi; simpl.
    + rewrite decide_True by (by left). rewrite IH.
      simpl. rewrite <-app_assoc. simpl. by rewrite Hafter, Hcl.
    + case_bool_decide as Hc; simpl.
      * rewrite decide_False by (intros [?|?]; congruence).
        rewrite IH. by rewrite Hafter.
      * rewrite decide_True by (by right). rewrite IH.
        simpl. rewrite <-app_assoc. simpl. by rewrite Hafter, Hcl.
Qed.

Lemma after_after l1 l2 st1 st2 w :
  after l2 st2 (after l1 st1 w) = after (l1 ++ l2) st2 w.
Proof.
  unfold after. simpl. f_equal; [rewrite length_app; lia|].
  by rewrite <-app_assoc.
Qed.

Lemma advance_after c st w : advance c st w = after [c] st w.
Proof. unfold advance, after. simpl. f_equal. lia. Qed.

Lemma getAllClusters_run env fuel ctx cs w :
  answer env (tick w) ContainerList = Ok cs →
  wfListing cs →
  run env fuel (getAllClusters ctx) w =
    (Done (Ok (listedClusters ctx (store w) cs)),
     after (listingCalls cs) (store w) w).
Proof.
  intros Hans Hwf. unfold getAllClusters.
  rewrite run_bind, (run_call _ _ ContainerList). unfold handle. simpl. rewrite Hans.
  rewrite run_bind, forClusters_run.
  - simpl. rewrite advance_after, after_after. done.
  - apply Forall_forall. intros [clusterID members] [-> _]%groupByCluster_entry.
    by apply wfListing_members.
Qed.

Lemma listedClusters_elem ctx st cs cl :
  cl ∈ listedClusters ctx st cs ↔
  membersOf (Cluster.ID cl) cs ≠ [] ∧
  visibleTo ctx (derivedCreator (membersOf (Cluster.ID cl) cs)) ∧
  cl = clusterOf st (Cluster.ID cl, membersOf (Cluster.ID cl) cs).
Proof.
  unfold listedClusters, visibleEntries. rewrite list_elem_of_fmap. split.
  - intros ([clusterID members] & -> & Hin).
    apply list_elem_of_filter in Hin as [Hvis Hin].
    apply groupByCluster_entry in Hin as [-> Hne]. simpl in *. done.
  - intros (Hne & Hvis & Hcl).
    exists (Cluster.ID cl, membersOf (Cluster.ID cl) cs). split; [done|].
    apply list_elem_of_filter. split; [done|].
    by apply groupByCluster_entry.
Qed.

Lemma find_listed ctx st cs clusterID :
  List.find (λ cluster, bool_decide (Cluster.ID cluster = clusterID))
    (listedClusters ctx st cs) = lookupCluster ctx st cs clusterID.
Proof.
  unfold lookupCluster.
  destruct (List.find _ _) as [cl|] eqn:Hfind.
  - apply find_some in Hfind as [Hin Hid].
    apply bool_decide_eq_true in Hid. subst clusterID.
    apply list_elem_of_In, listedClusters_elem in Hin as (Hne & Hvis & Hcl).
    rewrite decide_True by done. by rewrite <-Hcl.
  - case_decide as Hd; [|done]. destruct Hd as [Hne Hvis].
    pose proof (find_none _ _ Hfind
                  (clusterOf st (clusterID, membersOf clusterID cs))) as Hnone.
    simpl in Hnone. rewrite bool_decide_eq_false in Hnone.
    exfalso. apply Hnone; [|done].
    apply list_elem_of_In, listedClusters_elem. done.
Qed.

Lemma getCluster_run env fuel ctx clusterID cs w :
  answer env (tick w) ContainerList = Ok cs →
  wfListing cs →
  run env fuel (getCluster ctx clusterID) w =
    (Done match lookupCluster ctx (store w) cs clusterID with
          | Some cluster => Ok cluster
          | None => Err err_not_found
          end,
     after (listingCalls cs) (store w) w).
Proof.
  intros Hans Hwf. unfold getCluster.
  rewrite run_bind, (getAllClusters_run _ _ _ cs) by done. simpl.
  rewrite find_listed. by destruct (lookupCluster _ _ _ _).
Qed.

Lemma killCluster_run env fuel ctx clusterID cs w :
  answer env (tick w) ContainerList = Ok cs →
  wfListing cs →
  run env fuel (killCluster ctx clusterID) w =
    match lookupCluster ctx (store w) cs clusterID with
    | None => (Done (Some err_not_found), after (listingCalls cs) (store w) w)
    | Some cluster =>
        if negb (ContextIgnoreOwnership ctx)
           && bool_decide (Cluster.Owner cluster ≠ ContextUser ctx)
        then (Done (Some err_forbidden), after (listingCalls cs) (store w) w)
        else
          chain (runPool env fuel
                   (killNode ctx <$> (Node.ContainerID <$> Cluster.Nodes cluster))
                   [] (after (listingCalls cs) (store w) w))
            (λ errs w', (Done (firstError errs), w'))
    end.
Proof.
  intros Hans Hwf. unfold killCluster.
  rewrite run_bind, (getCluster_run _ _ _ _ cs) by done. simpl.
  destruct (lookupCluster _ _ _ _) as [cluster|]; [|done].
  destruct (negb _ && _); [done|]. simpl.
  by destruct (runPool _ _ _ _ _) as [[errs|msg|] w'].
Qed.

Lemma lookupCluster_Some ctx st cs clusterID :
  existsFor ctx cs clusterID →
  lookupCluster ctx st cs clusterID =
    Some (clusterOf st (clusterID, membersOf clusterID cs)).
Proof.
  intros [Hex Hvis]. unfold lookupCluster.
  rewrite decide_True; [done|]. split; [|done]. by apply membersOf_nonempty.
Qed.

Lemma lookupCluster_None ctx st cs clusterID :
  ¬ existsFor ctx cs clusterID → lookupCluster ctx st cs clusterID = None.
Proof.
  intros Hnot. unfold lookupCluster.
  rewrite decide_False; [done|]. intros [Hne Hvis]. apply Hnot.
  split; [|done]. by apply membersOf_nonempty.
Qed.

Lemma listingCalls_no_stop cs : Forall (λ c, ¬ isStop c) (listingCalls cs).
Proof.
  unfold listingCalls. constructor; [by intros []|].
  apply Forall_fmap, Forall_forall. by intros [? ?] _ [].
Qed.

Lemma clusterOf_owner st clusterID members :
  Cluster.Owner (clusterOf st (clusterID, members)) =
    match st !! clusterID with
    | Some meta => ClusterMeta.Owner meta
    | None => EmptyString
    end.
Proof. unfold clusterOf, storeGet. simpl. by destruct (st !! clusterID). Qed.

(** C4.  On every listing of the runtime (that the listing loop can walk)
    and for every caller, a cluster id is among those [getAllClusters]
    returns if and only if some listed container carries it as its
    cluster-id label and either the creator derived for the cluster is the
    caller or the ownership override is set.  The metadata store plays no
    part in that: a cluster without a record is returned all the same, with
    the empty owner and the zero timeout. *)
Theorem getAllClusters_visible env fuel ctx cs w :
  answer env (tick w) ContainerList = Ok cs →
  wfListing cs →
  ∃ clusters w',
    run env fuel (getAllClusters ctx) w = (Done (Ok clusters), w') ∧
    (∀ clusterID,
       clusterID ∈ (Cluster.ID <$> clusters) ↔
       (∃ c, c ∈ cs ∧ inCluster clusterID c) ∧
       visibleTo ctx (derivedCreator (membersOf clusterID cs))) ∧
    (∀ cluster, cluster ∈ clusters →
       Cluster.Creator cluster =
         derivedCreator (membersOf (Cluster.ID cluster) cs) ∧
       match store w !! Cluster.ID cluster with
       | Some meta =>
           Cluster.Owner cluster = ClusterMeta.Owner meta ∧
           Cluster.Timeout cluster = ClusterMeta.Timeout meta
       | None =>
           Cluster.Owner cluster = EmptyString ∧ Cluster.Timeout cluster = 0
       end).
Proof.
  intros Hans Hwf. eexists _, _. split; [by apply getAllClusters_run|].
  split.
  - intros clusterID. rewrite list_elem_of_fmap. split.
    + intros (cl & -> & Hin). apply listedClusters_elem in Hin as (Hne & Hvis & _).
      split; [by apply membersOf_nonempty|done].
    + intros [Hex Hvis].
      exists (clusterOf (store w) (clusterID, membersOf clusterID cs)).
      split; [done|]. apply listedClusters_elem. simpl.
      split; [by apply membersOf_nonempty|done].
  - intros cl (_ & _ & ->)%listedClusters_elem. simpl. split; [done|].
    unfold storeGet. by destruct (store w !! _).
Qed.

Lemma getAllClusters_visible_witness :
  answer Sample.quiet 0 ContainerList = Ok Sample.listing ∧
  wfListing Sample.listing ∧
  ∃ clusters w',
    run Sample.quiet 0 (getAllClusters Sample.alice) (Sample.start ∅) =
      (Done (Ok clusters), w') ∧
    "deadbeef" ∈ (Cluster.ID <$> clusters) ∧
    "cafecafe" ∉ (Cluster.ID <$> clusters).
Proof.
  assert (H1 : answer Sample.quiet 0 ContainerList = Ok Sample.listing)
    by reflexivity.
  assert (H2 : wfListing Sample.listing) by compute_done.
  split; [exact H1|]. split; [exact H2|].
  destruct (getAllClusters_visible Sample.quiet 0 Sample.alice
              Sample.listing (Sample.start ∅) H1 H2)
    as (clusters & w' & Hrun & Hiff & _).
  exists clusters, w'. split; [exact Hrun|]. split.
  - apply Hiff. split.
    + exists (Sample.container "1111111111111111" "deadbeef" "alice").
      split; [by left|compute_done].
    + compute_done.
  - intros Hin. apply Hiff in Hin as [_ Hvis]. revert Hvis. compute_done.
Defined.

(** C5, as stated, fails: a cluster that exists in the runtime and that
    the caller does not own is not always refused as forbidden.  When the
    caller is not its creator either, the listing hides the cluster and
    [killCluster] answers that it was not found. *)
Lemma kill_foreign_cluster_not_forbidden :
  ¬ (∀ env fuel ctx clusterID cs w,
       answer env (tick w) ContainerList = Ok cs →
       wfListing cs →
       (∃ c, c ∈ cs ∧ inCluster clusterID c) →
       ContextIgnoreOwnership ctx = false →
       match store w !! clusterID with
       | Some meta => ClusterMeta.Owner meta
       | None => EmptyString
       end ≠ ContextUser ctx →
       (run env fuel (killCluster ctx clusterID) w).1 = Done (Some err_forbidden)).
Proof.
  intros H.
  assert (Hrun : (run Sample.quiet 0 (killCluster Sample.bob "deadbeef")
                    (Sample.start (Sample.ownedBy "alice" 5000))).1 =
                 Done (Some err_not_found)) by (vm_compute; reflexivity).
  rewrite (H Sample.quiet 0%nat Sample.bob "deadbeef" Sample.listing
             (Sample.start (Sample.ownedBy "alice" 5000))) in Hrun.
  - discriminate Hrun.
  - reflexivity.
  - compute_done.
  - exists (Sample.container "1111111111111111" "deadbeef" "alice").
    split; [by left|compute_done].
  - reflexivity.
  - vm_compute. discriminate.
Qed.

(** C5, amended.  [killCluster] of a cluster id carried by no labelled
    container fails with the not-found error; without the ownership
    override, so does [killCluster] of a cluster whose derived creator is
    not the caller; and [killCluster] of a cluster that exists for the
    caller (some container carries its id and its derived creator is the
    caller) and whose recorded owner is not the caller fails with the
    ownership error.  In the three cases the only calls made are those of
    the listing: no container is stopped. *)
Theorem killCluster_refusals env fuel ctx clusterID cs w :
  answer env (tick w) ContainerList = Ok cs →
  wfListing cs →
  ((¬ ∃ c, c ∈ cs ∧ inCluster clusterID c) →
   run env fuel (killCluster ctx clusterID) w =
     (Done (Some err_not_found), after (listingCalls cs) (store w) w)) ∧
  (ContextIgnoreOwnership ctx = false →
   derivedCreator (membersOf clusterID cs) ≠ ContextUser ctx →
   run env fuel (killCluster ctx clusterID) w =
     (Done (Some err_not_found), after (listingCalls cs) (store w) w)) ∧
  (existsFor ctx cs clusterID →
   ContextIgnoreOwnership ctx = false →
   match store w !! clusterID with
   | Some meta => ClusterMeta.Owner meta
   | None => EmptyString
   end ≠ ContextUser ctx →
   run env fuel (killCluster ctx clusterID) w =
     (Done (Some err_forbidden), after (listingCalls cs) (store w) w)) ∧
  Forall (λ c, ¬ isStop c) (listingCalls cs).
Proof.
  intros Hans Hwf. rewrite (killCluster_run _ _ _ _ cs) by done.
  split_and!.
  - intros Hno. rewrite lookupCluster_None; [done|]. by intros [? _].
  - intros Hi Hc. rewrite lookupCluster_None; [done|].
    intros [_ [?|?]]; congruence.
  - intros Hex Hi Hown. rewrite lookupCluster_Some by done.
    rewrite clusterOf_owner, Hi. simpl. by rewrite bool_decide_eq_true_2.
  - apply listingCalls_no_stop.
Qed.

Lemma killCluster_refusals_witness :
  answer Sample.quiet 0 ContainerList = Ok Sample.listing ∧
  wfListing Sample.listing ∧
  run Sample.quiet 0 (killCluster Sample.alice "0badf00d") (Sample.start ∅) =
    (Done (Some err_not_found),
     after (listingCalls Sample.listing) ∅ (Sample.start ∅)) ∧
  run Sample.quiet 0 (killCluster Sample.bob "deadbeef")
    (Sample.start (Sample.ownedBy "alice" 5000)) =
    (Done (Some err_not_found),
     after (listingCalls Sample.listing) (Sample.ownedBy "alice" 5000)
       (Sample.start (Sample.ownedBy "alice" 5000))) ∧
  run Sample.quiet 0 (killCluster Sample.alice "deadbeef")
    (Sample.start (Sample.ownedBy "carol" 5000)) =
    (Done (Some err_forbidden),
     after (listingCalls Sample.listing) (Sample.ownedBy "carol" 5000)
       (Sample.start (Sample.ownedBy "carol" 5000))).
Proof.
  assert (H1 : answer Sample.quiet 0 ContainerList = Ok Sample.listing)
    by reflexivity.
  assert (H2 : wfListing Sample.listing) by compute_done.
  split; [exact H1|]. split; [exact H2|]. split_and!.
  - destruct (killCluster_refusals Sample.quiet 0 Sample.alice "0badf00d"
                Sample.listing (Sample.start ∅) H1 H2) as (Hno & _).
    apply Hno, no_members. reflexivity.
  - destruct (killCluster_refusals Sample.quiet 0 Sample.bob "deadbeef"
                Sample.listing (Sample.start (Sample.ownedBy "alice" 5000))
                H1 H2) as (_ & Hhidden & _).
    apply Hhidden; [reflexivity|compute_done].
  - destruct (killCluster_refusals Sample.quiet 0 Sample.alice "deadbeef"
                Sample.listing (Sample.start (Sample.ownedBy "carol" 5000))
                H1 H2) as (_ & _ & Hforbidden & _).
    apply Hforbidden; [|reflexivity|compute_done].
    split; [|compute_done].
    exists (Sample.container "1111111111111111" "deadbeef" "alice").
    split; [by left|compute_done].
Defined.

(** ** The fan-out *)

Lemma sum_list_delete (ds : list nat) i d :
  ds !! i = Some d →
  sum_list_with S ds = (sum_list_with S (delete i ds) + S d)%nat.
Proof.
  intros H. rewrite <-(take_drop_middle ds i d H) at 1.
  rewrite delete_take_drop, !sum_list_with_app. simpl. lia.
Qed.

Lemma sum_list_insert (ds : list nat) i d d' :
  ds !! i = Some d →
  (sum_list_with S (<[i:=d']> ds) + S d = sum_list_with S ds + S d')%nat.
Proof.
  intros H. rewrite <-(take_drop_middle ds i d H) at 2.
  rewrite insert_take_drop by (by eapply lookup_lt_Some).
  rewrite !sum_list_with_app. simpl. lia.
Qed.

Lemma runPool_step env fuel pool got w :
  pool ≠ [] →
  runPool env (S fuel) pool got w =
    let i := (sched env (tick w) `mod` length pool)%nat in
    match pool !! i with
    | None => (OutOfFuel, w)
    | Some (Ret e) =>
        runPool env fuel (delete i pool) (got ++ [e])
          {| store := store w; tick := S (tick w); trace := trace w |}
    | Some (Panic msg) => (Crashed msg, w)
    | Some (Do c k) =>
        let '(r, w') := handle env c w in
        runPool env fuel (<[i := k r]> pool) got w'
    end.
Proof. by destruct pool. Qed.

Lemma runPool_total env fuel pool ds got w :
  Forall2 (λ d t, bounded d t) ds pool →
  (sum_list_with S ds ≤ fuel)%nat →
  match runPool env fuel pool got w with
  | (OutOfFuel, _) => False
  | (Done errs, _) => length errs = (length got + length pool)%nat
  | (Crashed _, _) => True
  end.
Proof.
  revert pool ds got w. induction fuel as [|fuel IH]; intros pool ds got w Hb Hfuel.
  - destruct Hb as [|d t ds pool _ _]; simpl in *; lia.
  - destruct (decide (pool = [])) as [->|Hne]; [simpl; lia|].
    rewrite runPool_step by done. cbv zeta.
    set (i := (sched env (tick w) `mod` length pool)%nat).
    assert (Hi : (i < length pool)%nat).
    { apply Nat.mod_upper_bound. destruct pool; simpl; [done|lia]. }
    destruct (lookup_lt_is_Some_2 pool i Hi) as [t Ht]. rewrite Ht.
    destruct (Forall2_lookup_r _ _ _ _ _ Hb Ht) as (d & Hd & Hbd).
    destruct t as [e|msg|c k]; [| done |].
    + pose proof (IH (delete i pool) (delete i ds) (got ++ [e])
                    {| store := store w; tick := S (tick w); trace := trace w |})
        as IH'.
      pose proof (sum_list_delete _ _ _ Hd) as Hsum.
      destruct (runPool _ _ _ _ _) as [[errs|msg|] w'].
      * rewrite IH'; [|by apply Forall2_delete|lia].
        rewrite length_app, length_delete by eauto. simpl. lia.
      * done.
      * apply IH'; [by apply Forall2_delete|lia].
    + destruct d as [|d']; [done|]. simpl in Hbd.
      destruct (handle env c w) as [r w'].
      pose proof (IH (<[i := k r]> pool) (<[i := d']> ds) got w') as IH'.
      pose proof (sum_list_insert _ _ _ d' Hd) as Hsum.
      destruct (runPool _ _ _ _ _) as [[errs|msg|] w''].
      * rewrite IH'; [by rewrite length_insert|by apply Forall2_insert|lia].
      * done.
      * apply IH'; [by apply Forall2_insert|lia].
Qed.

Lemma runPool_uniform env fuel pool d w :
  Forall (bounded d) pool →
  (S d * length pool ≤ fuel)%nat →
  match runPool env fuel pool [] w with
  | (OutOfFuel, _) => False
  | (Done errs, _) => length errs = length pool
  | (Crashed _, _) => True
  end.
Proof.
  intros Hb Hfuel.
  apply (runPool_total env fuel pool (replicate (length pool) d) [] w).
  - apply Forall2_same_length_lookup. split; [by rewrite length_replicate|].
    intros i d' t [-> _]%lookup_replicate Ht.
    by eapply (Forall_lookup_1 _ _ _ _ Hb).
  - assert (Hsum : ∀ n, sum_list_with S (replicate n d) = (n * S d)%nat)
      by (induction n as [|n IHn]; simpl; [done|rewrite IHn; lia]).
    rewrite Hsum. lia.
Qed.

Lemma allocateWorker_bounded cfg ctx clusterID timeout node :
  bounded 5 (allocateWorker cfg ctx clusterID timeout node).
Proof.
  unfold allocateWorker, allocateNode, registerDomainName.
  destruct (NodeOptions.VersionInfo node); [|done].
  simpl. intros [id|e]; [|done]. simpl.
  intros [e|]; [done|]. simpl.
  intros [json|e]; [|done]. simpl.
  destruct (json ≫= _) as [net|]; [|done].
  repeat case_decide; simpl; try done; intros; simpl; try done.
Qed.

Lemma firstError_cons err errs :
  firstError (err :: errs) =
    match err with
    | Some e => Some e
    | None => firstError errs
    end.
Proof.
  unfold firstError. simpl. destruct err as [e|]; [|done].
  induction errs as [|[e'|] errs IH]; simpl; done.
Qed.

Lemma firstError_None errs : firstError errs = None ↔ Forall (λ err, err = None) errs.
Proof.
  induction errs as [|[e|] errs IH]; rewrite ?firstError_cons.
  - split; [constructor|done].
  - split; [done|]. by intros [? _]%Forall_cons.
  - rewrite IH. split; [by constructor|]. by intros [_ ?]%Forall_cons.
Qed.

Lemma firstError_Some errs e :
  firstError errs = Some e ↔
  ∃ i, errs !! i = Some (Some e) ∧ ∀ j, (j < i)%nat → errs !! j = Some None.
Proof.
  induction errs as [|[e'|] errs IH]; rewrite ?firstError_cons.
  - split; [done|]. by intros (i & Hi & _).
  - split.
    + intros [= ->]. exists 0%nat. split; [done|]. lia.
    + intros (i & Hi & Hbefore). destruct i as [|i]; [by simplify_eq/=|].
      specialize (Hbefore 0%nat ltac:(lia)). by simplify_eq/=.
  - rewrite IH. split.
    + intros (i & Hi & Hbefore). exists (S i). split; [done|].
      intros [|j] Hj; [done|]. simpl. apply Hbefore. lia.
    + intros (i & Hi & Hbefore). destruct i as [|i]; [by simplify_eq/=|].
      exists i. split; [done|]. intros j Hj. apply (Hbefore (S j)). lia.
Qed.

(** ** The trace only grows *)

Lemma runPool_trace env fuel pool got w :
  trace w `prefix_of` trace (runPool env fuel pool got w).2.
Proof.
  revert pool got w. induction fuel as [|fuel IH]; intros pool got w.
  - by destruct pool.
  - destruct (decide (pool = [])) as [->|Hne]; [done|].
    rewrite runPool_step by done. cbv zeta.
    destruct (pool !! _) as [[e|msg|c k]|]; try done.
    + apply (IH _ _ {| store := store w; tick := S (tick w); trace := trace w |}).
    + pose proof (handle_trace env c w) as Ht.
      destruct (handle env c w) as [r w']. simpl in Ht.
      etrans; [|apply IH]. rewrite Ht. by apply prefix_app_r.
Qed.

Lemma run_trace env fuel {A} (p : prog A) w :
  trace w `prefix_of` trace (run env fuel p w).2.
Proof.
  revert w. induction p as [a|msg|s k IH]; intros w; simpl; try done.
  destruct s as [c|workers].
  - pose proof (handle_trace env c w) as Ht.
    destruct (handle env c w) as [r w']. simpl in Ht.
    etrans; [|apply IH]. rewrite Ht. by apply prefix_app_r.
  - pose proof (runPool_trace env fuel workers [] w) as Ht.
    destruct (runPool env fuel workers [] w) as [[errs|msg|] w']; simpl in *; try done.
    etrans; [done|apply IH].
Qed.

(** ** Allocation *)

Lemma newRandomClusterID_run env fuel w :
  run env fuel newRandomClusterID w =
    (Done (newClusterID env w), after [NewRandomUUID] (store w) w).
Proof.
  unfold newRandomClusterID. rewrite run_bind, (run_call _ _ NewRandomUUID).
  unfold handle, newClusterID. simpl.
  destruct (answer env (tick w) NewRandomUUID) as [s Hs]. simpl.
  apply bool_decide_eq_true in Hs.
  rewrite go_prefix_ok by lia. simpl. by rewrite advance_after.
Qed.

Lemma handle_TimeNow env w :
  handle env TimeNow w = (answer env (tick w) TimeNow, after [TimeNow] (store w) w).
Proof. unfold handle. by rewrite advance_after. Qed.

Lemma handle_create env clusterID meta w :
  handle env (CreateClusterMeta clusterID meta) w =
    match answer env (tick w) (CreateClusterMeta clusterID meta) with
    | Some e => (Some e, after [CreateClusterMeta clusterID meta] (store w) w)
    | None =>
        (None, after [CreateClusterMeta clusterID meta]
                 (<[clusterID := meta]> (store w)) w)
    end.
Proof.
  unfold handle, storeCreate.
  destruct (answer env (tick w) _); by rewrite advance_after.
Qed.

Lemma run_fanOut env fuel ws w :
  run env fuel (fanOut ws) w =
    chain (runPool env fuel ws [] w) (λ errs w', (Done errs, w')).
Proof. simpl. by destruct (runPool _ _ _ _ _) as [[?|?|] ?]. Qed.

Lemma chain_chain {A B C} (r : exec A * World)
    (f : A → World → exec B * World) (g : B → World → exec C * World) :
  chain (chain r f) g = chain r (λ a w, chain (f a w) g).
Proof. by destruct r as [[?|?|] ?]. Qed.

Lemma allocateChecked_run cfg env fuel ctx nodes w :
  run env fuel (allocateChecked cfg ctx nodes) w =
    match createFault env ctx w with
    | Some e => (Done (Err e), after (prologue env ctx w) (store w) w)
    | None =>
        chain (runPool env fuel (workers cfg env ctx nodes w) [] (created env ctx w))
          (λ errs w2,
             match firstError errs with
             | Some e =>
                 discard (Err e)
                   (run env fuel (killCluster ctx (newClusterID env w)) w2)
             | None => (Done (Ok (newClusterID env w)), w2)
             end)
    end.
Proof.
  unfold allocateChecked.
  rewrite run_bind, newRandomClusterID_run. cbn [chain].
  rewrite run_bind, (run_call _ _ TimeNow), handle_TimeNow. cbn [chain fst snd].
  rewrite after_after.
  rewrite run_bind, (run_call _ _ (CreateClusterMeta _ _)), handle_create.
  unfold createFault, createCall, newMeta, created, prologue, workers,
    createCall, newMeta.
  cbn [tick after length app]. rewrite !Nat.add_succ_r, Nat.add_0_r.
  set (clusterID := newClusterID env w).
  set (meta := ClusterMeta.mk _ _).
  destruct (answer env (S (S (tick w))) (CreateClusterMeta clusterID meta))
    as [e|]; cbn [chain fst snd]; rewrite after_after.
  - done.
  - rewrite run_bind, run_fanOut, chain_chain. cbn [app ClusterMeta.Timeout meta].
    destruct (runPool _ _ _ _ _) as [[errs|msg|] w2]; cbn [chain]; try done.
    destruct (firstError errs) as [e|]; [|done].
    by rewrite run_bind.
Qed.

(** ** Which programs write to the store *)

Lemma allActions_bind {action} {result : action → Type} {A B} P
    (p : free result A) (f : A → free result B) :
  allActions P p → (∀ a, allActions P (f a)) → allActions P (p ≫= f).
Proof.
  intros Hp Hf. induction p as [a|msg|c k IH]; simpl in *; [done..|].
  destruct Hp as [Hc Hk]. split; [done|]. intros r. by apply IH.
Qed.

Lemma handle_store env c w : ¬ writes c → store (handle env c w).2 = store w.
Proof. unfold handle. destruct c; simpl; try done; by intros []. Qed.

Lemma runPool_store env fuel pool got w :
  Forall taskReadsOnly pool → store (runPool env fuel pool got w).2 = store w.
Proof.
  revert pool got w. induction fuel as [|fuel IH]; intros pool got w Hro.
  - by destruct pool.
  - destruct (decide (pool = [])) as [->|Hne]; [done|].
    rewrite runPool_step by done. cbv zeta.
    destruct (pool !! _) as [[e|msg|c k]|] eqn:Ht; try done.
    + rewrite IH; [done|]. by apply Forall_delete.
    + pose proof (Forall_lookup_1 _ _ _ _ Hro Ht) as [Hc Hk].
      pose proof (handle_store env c w Hc) as Hst.
      destruct (handle env c w) as [r w']. simpl in Hst.
      rewrite IH; [done|]. apply Forall_insert; [done|apply Hk].
Qed.

Lemma run_store env fuel {A} (p : prog A) w :
  readsOnly p → store (run env fuel p w).2 = store w.
Proof.
  revert w. induction p as [a|msg|s k IH]; intros w Hro; simpl; try done.
  destruct Hro as [Hs Hk]. destruct s as [c|ws]; simpl in Hs.
  - pose proof (handle_store env c w Hs) as Hst.
    destruct (handle env c w) as [r w']. simpl in Hst.
    rewrite IH; [done|apply Hk].
  - pose proof (runPool_store env fuel ws [] w Hs) as Hst.
    destruct (runPool env fuel ws [] w) as [[errs|msg|] w']; simpl in *; try done.
    rewrite IH; [done|apply Hk].
Qed.

Lemma forClusters_readsOnly ctx entries clusters :
  readsOnly (forClusters ctx entries clusters).
Proof.
  revert clusters. induction entries as [|[clusterID members] entries IH];
    intros clusters; simpl; [done|].
  split; [by intros []|]. intros [meta err].
  destruct (nodesOf _ _ _) as [[creator nodes]|msg]; [|done].
  destruct (negb _ && _); apply IH.
Qed.

Lemma killCluster_readsOnly ctx clusterID : readsOnly (killCluster ctx clusterID).
Proof.
  unfold killCluster, getCluster, getAllClusters.
  repeat (apply allActions_bind; [|intros ?]).
  - split; [by intros []|done].
  - destruct a as [cs|e]; [|done].
    apply allActions_bind; [apply forClusters_readsOnly|done].
  - destruct a as [clusters|e]; [|done]. by destruct (List.find _ _).
  - destruct a as [cluster|e]; [|done].
    destruct (negb _ && _); [done|].
    apply allActions_bind; [|done].
    split; [|done]. apply Forall_fmap, Forall_forall.
    intros id _. split; [by intros []|done].
Qed.

Lemma allocateWorker_readsOnly cfg ctx clusterID timeout node :
  taskReadsOnly (allocateWorker cfg ctx clusterID timeout node).
Proof.
  unfold allocateWorker, allocateNode, registerDomainName.
  destruct (NodeOptions.VersionInfo node); [|done].
  split; [by intros []|]. intros [id|e]; [|done].
  split; [by intros []|]. intros [e|]; [done|].
  split; [by intros []|]. intros [json|e]; [|done]. simpl.
  destruct (json ≫= _) as [net|]; [|done].
  repeat case_decide; simpl; repeat split; try done; try (by intros []).
Qed.

(** ** Validation *)

Lemma allocateCluster_valid cfg ctx opts :
  withinBounds opts →
  allocateCluster cfg ctx opts = allocateChecked cfg ctx (ClusterOptions.Nodes opts).
Proof.
  intros [[H1 H2] [H3 H4]]. unfold allocateCluster, fourteenDays in *.
  rewrite !decide_False by lia. done.
Qed.

Lemma allocateCluster_invalid cfg ctx opts :
  ¬ withinBounds opts →
  ∃ e, isInvalidRequest e ∧ allocateCluster cfg ctx opts = Ret (Err e).
Proof.
  intros Hnot. unfold allocateCluster, isInvalidRequest.
  repeat case_decide; try (eexists; split; [|reflexivity]; set_solver).
  exfalso. apply Hnot. unfold withinBounds, fourteenDays. lia.
Qed.

Lemma withinBounds_threeNodes timeout :
  0 ≤ timeout ≤ fourteenDays → withinBounds (Sample.threeNodes timeout).
Proof. intros H. split; [done|simpl; lia]. Qed.

Lemma allocateChecked_trace cfg env fuel ctx nodes w :
  trace w ++ prologue env ctx w
    `prefix_of` trace (run env fuel (allocateChecked cfg ctx nodes) w).2.
Proof.
  rewrite allocateChecked_run.
  destruct (createFault env ctx w) as [e|]; [done|].
  pose proof (runPool_trace env fuel (workers cfg env ctx nodes w) []
                (created env ctx w)) as Hp.
  change (trace (created env ctx w)) with (trace w ++ prologue env ctx w) in Hp.
  destruct (runPool _ _ _ _ _) as [[errs|msg|] w2]; cbn [chain fst snd] in *;
    try done.
  destruct (firstError errs) as [e|]; [|done].
  etrans; [exact Hp|]. unfold discard.
  pose proof (run_trace env fuel (killCluster ctx (newClusterID env w)) w2) as Hk.
  by destruct (run env fuel (killCluster _ _) w2) as [[?|?|] ?].
Qed.

Lemma workers_readsOnly cfg env ctx nodes w :
  Forall taskReadsOnly (workers cfg env ctx nodes w).
Proof.
  apply Forall_fmap, Forall_forall. intros. apply allocateWorker_readsOnly.
Qed.

Lemma allocateChecked_store cfg env fuel ctx nodes w :
  createFault env ctx w = None →
  store (run env fuel (allocateChecked cfg ctx nodes) w).2 =
    <[newClusterID env w := newMeta env ctx w]> (store w).
Proof.
  intros Hok. rewrite allocateChecked_run, Hok.
  pose proof (runPool_store env fuel (workers cfg env ctx nodes w) []
                (created env ctx w) (workers_readsOnly _ _ _ _ _)) as Hp.
  change (store (created env ctx w)) with
    (<[newClusterID env w := newMeta env ctx w]> (store w)) in Hp.
  destruct (runPool _ _ _ _ _) as [[errs|msg|] w2]; cbn [chain fst snd] in *;
    try done.
  destruct (firstError errs) as [e|]; [|done].
  unfold discard.
  pose proof (run_store env fuel (killCluster ctx (newClusterID env w)) w2
                (killCluster_readsOnly _ _)) as Hk.
  destruct (run env fuel (killCluster _ _) w2) as [[?|?|] ?];
    cbn [chain fst snd] in *; congruence.
Qed.

(** C2, as stated, fails: a request with a timeout of zero is outside the
    bounds [0 < timeout <= 14 days] and is not refused.  The check is
    [opts.Timeout < 0]. *)
Lemma zero_timeout_is_accepted :
  ¬ (∀ cfg env fuel ctx opts w,
       rejects cfg env fuel ctx opts w ↔ ¬ specBounds opts).
Proof.
  intros H.
  destruct (H Sample.cfg Sample.quiet 18%nat Sample.alice
              (Sample.threeNodes 0) (Sample.start ∅)) as [_ Hrej].
  destruct Hrej as (e & _ & Hrun).
  - unfold specBounds. simpl. lia.
  - apply (f_equal (λ r, tick r.2)) in Hrun. vm_compute in Hrun.
    discriminate Hrun.
Qed.

(** C2, amended.  [allocateCluster] fails with one of the four
    invalid-request errors, having made no call at all (the state is
    untouched), exactly when the request violates
    [0 <= timeout <= 14 days] or [1 <= nodeCount <= 10]; and every request
    within those bounds goes on to draw a cluster id, read the clock and
    call [CreateClusterMeta], in that order, before anything else. *)
Theorem allocateCluster_validation cfg env fuel ctx opts w :
  (rejects cfg env fuel ctx opts w ↔ ¬ withinBounds opts) ∧
  (withinBounds opts →
   trace w ++ prologue env ctx w
     `prefix_of` trace (run env fuel (allocateCluster cfg ctx opts) w).2).
Proof.
  assert (Hin : withinBounds opts →
     trace w ++ prologue env ctx w
       `prefix_of` trace (run env fuel (allocateCluster cfg ctx opts) w).2).
  { intros Hb. rewrite (allocateCluster_valid _ _ _ Hb).
    apply allocateChecked_trace. }
  split; [|done]. split.
  - intros (e & _ & Hrun) Hb. specialize (Hin Hb). rewrite Hrun in Hin.
    apply prefix_length in Hin. rewrite length_app in Hin. simpl in Hin. lia.
  - intros Hnot. unfold rejects.
    destruct (allocateCluster_invalid cfg ctx opts Hnot) as (e & He & Heq).
    rewrite Heq. by exists e.
Qed.

(** C8.  Two requests within the bounds that differ only in their timeout
    run identically from the same state: same result, same calls, same
    store.  The record passed to [CreateClusterMeta] has the caller as its
    owner and the clock reading plus one hour as its timeout, whatever the
    requested timeout; and when that call succeeds this is the record the
    store holds for the new cluster when [allocateCluster] ends. *)
Theorem allocateCluster_fixed_window cfg env fuel ctx opts1 opts2 w :
  withinBounds opts1 →
  withinBounds opts2 →
  ClusterOptions.Nodes opts1 = ClusterOptions.Nodes opts2 →
  let meta :=
    ClusterMeta.mk (ContextUser ctx) (answer env (S (tick w)) TimeNow + 1 * Hour) in
  run env fuel (allocateCluster cfg ctx opts1) w =
    run env fuel (allocateCluster cfg ctx opts2) w ∧
  trace w ++ [NewRandomUUID; TimeNow; CreateClusterMeta (newClusterID env w) meta]
    `prefix_of` trace (run env fuel (allocateCluster cfg ctx opts1) w).2 ∧
  (answer env (S (S (tick w))) (CreateClusterMeta (newClusterID env w) meta) = None →
   store (run env fuel (allocateCluster cfg ctx opts1) w).2 !! newClusterID env w =
     Some meta).
Proof.
  intros Hb1 Hb2 Hnodes meta.
  rewrite !(allocateCluster_valid _ _ _ Hb1), !(allocateCluster_valid _ _ _ Hb2).
  rewrite Hnodes. split_and!; [done|apply allocateChecked_trace|].
  intros Hok. rewrite allocateChecked_store by done. apply lookup_insert_eq.
Qed.

Lemma allocateCluster_fixed_window_witness :
  withinBounds (Sample.threeNodes 60) ∧
  withinBounds (Sample.threeNodes fourteenDays) ∧
  run Sample.quiet 18
    (allocateCluster Sample.cfg Sample.alice (Sample.threeNodes 60))
    (Sample.start ∅) =
  run Sample.quiet 18
    (allocateCluster Sample.cfg Sample.alice (Sample.threeNodes fourteenDays))
    (Sample.start ∅) ∧
  store (run Sample.quiet 18
           (allocateCluster Sample.cfg Sample.alice (Sample.threeNodes 60))
           (Sample.start ∅)).2 !! "deadbeef" =
    Some (ClusterMeta.mk "alice" (1000 + 1 * Hour)).
Proof.
  assert (H1 : withinBounds (Sample.threeNodes 60))
    by (apply withinBounds_threeNodes; compute_done).
  assert (H2 : withinBounds (Sample.threeNodes fourteenDays))
    by (apply withinBounds_threeNodes; compute_done).
  split; [exact H1|]. split; [exact H2|].
  destruct (allocateCluster_fixed_window Sample.cfg Sample.quiet 18
              Sample.alice (Sample.threeNodes 60)
              (Sample.threeNodes fourteenDays) (Sample.start ∅) H1 H2 eq_refl)
    as (Hsame & _ & Hstore).
  split; [exact Hsame|]. apply Hstore. reflexivity.
Defined.

(** ** Refresh *)





(** C10, as stated, fails: not every caller without the ownership override
    gets the ownership error.  A caller who is not the creator does not
    see the cluster and gets the not-found error. *)
Lemma stranger_without_metadata_gets_not_found :
  ¬ (∀ env fuel ctx clusterID cs w,
       answer env (tick w) ContainerList = Ok cs →
       wfListing cs →
       (∃ c, c ∈ cs ∧ inCluster clusterID c) →
       store w !! clusterID = None →
       ContextIgnoreOwnership ctx = false →
       (run env fuel (killCluster ctx clusterID) w).1 = Done (Some err_forbidden)).
Proof.
  intros H.
  assert (Hrun : (run Sample.quiet 0 (killCluster Sample.bob "deadbeef")
                    (Sample.start ∅)).1 = Done (Some err_not_found))
    by (vm_compute; reflexivity).
  rewrite (H Sample.quiet 0%nat Sample.bob "deadbeef" Sample.listing
             (Sample.start ∅)) in Hrun.
  - discriminate Hrun.
  - reflexivity.
  - compute_done.
  - exists (Sample.container "1111111111111111" "deadbeef" "alice").
    split; [by left|compute_done].
  - compute_done.
  - reflexivity.
Qed.

(** C10, amended.  For a cluster carried by some listed container and
    without a record in the store: [getAllClusters] returns it, to whoever
    it returns it, with the empty owner; and [killCluster] by a caller
    without the ownership override fails, with the ownership error when
    the caller is the derived creator and with the not-found error
    otherwise, having made only the calls of the listing: no container is
    stopped. *)
Theorem killCluster_without_metadata env fuel ctx clusterID cs w :
  answer env (tick w) ContainerList = Ok cs →
  wfListing cs →
  (∃ c, c ∈ cs ∧ inCluster clusterID c) →
  store w !! clusterID = None →
  ContextIgnoreOwnership ctx = false →
  (∀ ctx', ∃ clusters w',
     run env fuel (getAllClusters ctx') w = (Done (Ok clusters), w') ∧
     (visibleTo ctx' (derivedCreator (membersOf clusterID cs)) →
      clusterID ∈ (Cluster.ID <$> clusters)) ∧
     ∀ cluster, cluster ∈ clusters → Cluster.ID cluster = clusterID →
                Cluster.Owner cluster = EmptyString) ∧
  run env fuel (killCluster ctx clusterID) w =
    (Done (Some (if decide (derivedCreator (membersOf clusterID cs) = ContextUser ctx)
                 then err_forbidden else err_not_found)),
     after (listingCalls cs) (store w) w) ∧
  Forall (λ c, ¬ isStop c) (listingCalls cs).
Proof.
  intros Hans Hwf Hex Hnone Hi. split_and!.
  - intros ctx'. eexists _, _. split; [by apply getAllClusters_run|]. split.
    + intros Hvis. apply list_elem_of_fmap.
      exists (clusterOf (store w) (clusterID, membersOf clusterID cs)).
      split; [done|]. apply listedClusters_elem. simpl.
      split; [by apply membersOf_nonempty|done].
    + intros cl (_ & _ & ->)%listedClusters_elem Hid. simpl in Hid.
      rewrite clusterOf_owner. simpl. by rewrite Hid, Hnone.
  - rewrite (killCluster_run _ _ _ _ cs) by done.
    case_decide as Hc.
    + rewrite lookupCluster_Some by (split; [done|by right]).
      rewrite clusterOf_owner, Hnone, Hi. simpl.
      rewrite bool_decide_eq_true_2; [done|].
      rewrite <-Hc. intros Heq. by apply (derivedCreator_nonempty (membersOf clusterID cs)).
    + rewrite lookupCluster_None; [done|].
      intros [_ [?|?]]; congruence.
  - apply listingCalls_no_stop.
Qed.

Lemma killCluster_without_metadata_witness :
  answer Sample.quiet 0 ContainerList = Ok Sample.listing ∧
  wfListing Sample.listing ∧
  run Sample.quiet 0 (killCluster Sample.alice "deadbeef") (Sample.start ∅) =
    (Done (Some err_forbidden),
     after (listingCalls Sample.listing) ∅ (Sample.start ∅)) ∧
  run Sample.quiet 0 (killCluster Sample.bob "deadbeef") (Sample.start ∅) =
    (Done (Some err_not_found),
     after (listingCalls Sample.listing) ∅ (Sample.start ∅)).
Proof.
  assert (H1 : answer Sample.quiet 0 ContainerList = Ok Sample.listing)
    by reflexivity.
  assert (H2 : wfListing Sample.listing) by compute_done.
  assert (H3 : ∃ c, c ∈ Sample.listing ∧ inCluster "deadbeef" c).
  { exists (Sample.container "1111111111111111" "deadbeef" "alice").
    split; [by left|compute_done]. }
  assert (H4 : store (Sample.start ∅) !! "deadbeef" = None) by compute_done.
  split; [exact H1|]. split; [exact H2|]. split.
  - destruct (killCluster_without_metadata Sample.quiet 0 Sample.alice
                "deadbeef" Sample.listing (Sample.start ∅) H1 H2 H3
                H4 eq_refl) as (_ & Hrun & _).
    exact Hrun.
  - destruct (killCluster_without_metadata Sample.quiet 0 Sample.bob
                "deadbeef" Sample.listing (Sample.start ∅) H1 H2 H3
                H4 eq_refl) as (_ & Hrun & _).
    exact Hrun.
Defined.

(** * Further properties *)

(** ** More on the version resolver and the artifact names *)

Lemma string_app_assoc (a b c : string) : (a +:+ b) +:+ c = a +:+ b +:+ c.
Proof.
  induction a as [|x a IH]; [done|].
  change (String x ((a +:+ b) +:+ c) = String x (a +:+ b +:+ c)).
  by rewrite IH.
Qed.

Lemma cut_join sep s rest :
  afterFirst sep s = Some rest → s = beforeFirst sep s +:+ String sep rest.
Proof.
  unfold beforeFirst, afterFirst. revert rest.
  induction s as [|c s IH]; intros rest; simpl; [done|].
  case_decide as Hc.
  - simpl. intros [= ->]. by rewrite Hc.
  - destruct (cutFirst sep s) as [p r]; simpl in *.
    intros ->. change (String c s = String c (p +:+ String sep rest)).
    by rewrite <-(IH rest).
Qed.

Lemma parseServerVersion_Ok version nv :
  parseServerVersion version = Returns (Ok nv) →
  flavorFromVersion (beforeFirst "-"%char version) =
    Returns (Ok (NodeVersion.Flavor nv)) ∧
  NodeVersion.Version nv = beforeFirst "-"%char version ∧
  NodeVersion.Build nv =
    match afterFirst "-"%char version with
    | None => EmptyString
    | Some rest => beforeFirst "-"%char rest
    end.
Proof.
  rewrite parseServerVersion_cases.
  destruct (flavorFromVersion _) as [[flavor|e]|msg]; simpl; [|done..].
  by intros [= <-].
Qed.

(** X1.  When a version string resolves and has no dash, or exactly one dash
    followed by a non-empty build, the three artifact names carry the
    string as it was given: the tag is the string followed by [.centos7],
    the image is the registry, [/dynclsr-couchbase_] and the tag, and the
    package is [couchbase-server-enterprise-], the string and
    [-centos7.x86_64.rpm]. *)
Theorem artifact_names_embed_input registry version nv :
  parseServerVersion version = Returns (Ok nv) →
  (afterFirst "-"%char version = None ∨
   ∃ build, afterFirst "-"%char version = Some build ∧
            build ≠ EmptyString ∧ afterFirst "-"%char build = None) →
  toTagName nv = version +:+ ".centos7" ∧
  toImageName registry nv =
    registry +:+ "/dynclsr-couchbase_" +:+ version +:+ ".centos7" ∧
  toPkgName nv =
    "couchbase-server-enterprise-" +:+ version +:+ "-centos7.x86_64.rpm".
Proof.
  intros (_ & Hv & Hb)%parseServerVersion_Ok Hshape.
  assert (Htag : toTagName nv = version +:+ ".centos7" ∧
                 toPkgName nv =
                   "couchbase-server-enterprise-" +:+ version
                     +:+ "-centos7.x86_64.rpm").
  { unfold toTagName, toPkgName. rewrite Hv, Hb.
    destruct Hshape as [Hnone|(build & Hsome & Hne & Hlast)].
    - rewrite Hnone, !decide_True by done.
      by rewrite (beforeFirst_no_sep _ _ Hnone).
    - rewrite Hsome, (beforeFirst_no_sep _ _ Hlast), decide_False by done.
      pose proof (cut_join _ _ _ Hsome) as Hjoin.
      change (String "-" build) with ("-" +:+ build) in Hjoin.
      clear Hv Hb Hsome Hlast.
      set (p := beforeFirst "-"%char version) in *. clearbody p. subst version.
      rewrite !string_app_assoc. split; [done|by rewrite decide_False]. }
  destruct Htag as [Htag Hpkg]. split_and!; [done| |done].
  unfold toImageName. by rewrite Htag.
Qed.

Lemma artifact_names_embed_input_witness :
  toTagName (NodeVersion.mk "6.5.1" "mad-hatter" "2134") =
    "6.5.1-2134.centos7" ∧
  toImageName "registry.local" (NodeVersion.mk "6.5.1" "mad-hatter" "2134") =
    "registry.local/dynclsr-couchbase_6.5.1-2134.centos7" ∧
  toPkgName (NodeVersion.mk "6.5.1" "mad-hatter" "2134") =
    "couchbase-server-enterprise-6.5.1-2134-centos7.x86_64.rpm".
Proof.
  apply (artifact_names_embed_input "registry.local" "6.5.1-2134"
           (NodeVersion.mk "6.5.1" "mad-hatter" "2134")).
  - reflexivity.
  - right. exists "2134". split; [reflexivity|]. split; [discriminate|reflexivity].
Defined.

Lemma lookupFlavor_supported major minor :
  is_Some (lookupFlavor major (floorMinor minor)) ↔ supported major minor.
Proof.
  unfold supported. split.
  - intros [flavor Hf%lookupFlavor_known]. unfold knownFlavors, floorMinor in Hf.
    rewrite !elem_of_cons, elem_of_nil in Hf.
    case_decide; repeat (destruct Hf as [Hf|Hf]); simplify_eq; try done; lia.
  - intros Hs.
    assert (major = 4 ∨ major = 5 ∨ major = 6 ∨ (major = 7 ∧ minor < 5))
      as [->|[->|[->|[-> Hm]]]] by lia;
      unfold floorMinor; repeat case_decide; try lia; by eexists.
Qed.

(** X2.  [flavorFromVersion] returns a flavor exactly when the base has a
    dot, its first two dot-separated components are integers, and the
    major is 4, 5 or 6, or is 7 with a minor below 5.  So 7.5 and above,
    and every major outside 4..7, have no flavor. *)
Theorem flavorFromVersion_succeeds_iff base :
  (∃ flavor, flavorFromVersion base = Returns (Ok flavor)) ↔
  ∃ rest major minor,
    afterFirst "."%char base = Some rest ∧
    strconv_Atoi (beforeFirst "."%char base) = Some major ∧
    strconv_Atoi (beforeFirst "."%char rest) = Some minor ∧
    supported major minor.
Proof.
  rewrite flavorFromVersion_cases. split.
  - intros [flavor Hf].
    destruct (strconv_Atoi (beforeFirst _ base)) as [major|] eqn:Hmajor; [|done].
    destruct (afterFirst _ base) as [rest|] eqn:Hrest; [|done].
    destruct (strconv_Atoi (beforeFirst _ rest)) as [minor|] eqn:Hminor; [|done].
    exists rest, major, minor. split_and!; [done..|].
    apply lookupFlavor_supported.
    destruct (lookupFlavor _ _); [eauto|done].
  - intros (rest & major & minor & -> & -> & -> & Hs).
    apply lookupFlavor_supported in Hs as [flavor ->]. eauto.
Qed.

(** X3.  The outcome of [flavorFromVersion] (flavor, error or panic) depends
    on the first two dot-separated components only: two versions that
    agree on them have the same outcome, whatever follows. *)
Theorem flavorFromVersion_ignores_patch v1 v2 :
  take 2 (strings_Split "."%char v1) = take 2 (strings_Split "."%char v2) →
  flavorFromVersion v1 = flavorFromVersion v2.
Proof.
  intros Htake.
  assert (H0 : take 2 (strings_Split "."%char v1) !! 0%nat =
               take 2 (strings_Split "."%char v2) !! 0%nat) by (by rewrite Htake).
  assert (H1 : take 2 (strings_Split "."%char v1) !! 1%nat =
               take 2 (strings_Split "."%char v2) !! 1%nat) by (by rewrite Htake).
  rewrite !lookup_take in H0, H1.
  rewrite !decide_True in H0 by lia. rewrite !decide_True in H1 by lia.
  rewrite !strings_Split_head in H0. rewrite !strings_Split_second in H1.
  injection H0 as H0. rewrite !flavorFromVersion_cases, H0.
  destruct (afterFirst _ v1) as [r1|], (afterFirst _ v2) as [r2|];
    simpl in H1; try done.
  injection H1 as H1. by rewrite H1.
Qed.

Lemma flavorFromVersion_ignores_patch_witness :
  flavorFromVersion "6.5.1" = flavorFromVersion "6.5.99.hotfix".
Proof. apply flavorFromVersion_ignores_patch. reflexivity. Defined.

Lemma cutFirst_before sep s :
  afterFirst sep (beforeFirst sep s) = None ∧
  beforeFirst sep (beforeFirst sep s) = beforeFirst sep s.
Proof.
  unfold beforeFirst, afterFirst.
  induction s as [|c s [IH1 IH2]]; simpl; [done|].
  case_decide as Hc; [done|].
  destruct (cutFirst sep s) as [p r]; simpl in *.
  rewrite decide_False by done.
  destruct (cutFirst sep p) as [p' r']; simpl in *. by subst.
Qed.

(** X4.  A version whose second dash-separated piece is empty (the string
    ends in a dash, or has two dashes in a row) resolves exactly as its
    base version does: the build is empty and what follows is dropped. *)
Theorem empty_build_resolves_as_base version rest :
  afterFirst "-"%char version = Some rest →
  beforeFirst "-"%char rest = EmptyString →
  parseServerVersion version = parseServerVersion (beforeFirst "-"%char version).
Proof.
  intros Hrest Hempty. rewrite !parseServerVersion_cases.
  destruct (cutFirst_before "-"%char version) as [-> ->].
  by rewrite Hrest, Hempty.
Qed.

Lemma empty_build_resolves_as_base_witness :
  parseServerVersion "6.5.1--2134" = parseServerVersion "6.5.1".
Proof.
  apply (empty_build_resolves_as_base "6.5.1--2134" "-2134"); reflexivity.
Defined.

(** X5.  For a resolved version, [toURL] is the release URL followed by
    the base version when the input has no build piece or an empty one, and
    otherwise the build URL followed by the flavor, a slash and the build
    piece, where the flavor is one of the table. *)
Theorem toURL_release_or_build releaseUrl buildUrl version nv :
  parseServerVersion version = Returns (Ok nv) →
  match afterFirst "-"%char version with
  | None => toURL releaseUrl buildUrl nv = releaseUrl +:+ version
  | Some rest =>
      if decide (beforeFirst "-"%char rest = EmptyString) then
        toURL releaseUrl buildUrl nv = releaseUrl +:+ beforeFirst "-"%char version
      else
        toURL releaseUrl buildUrl nv =
          buildUrl +:+ NodeVersion.Flavor nv +:+ "/" +:+ beforeFirst "-"%char rest ∧
        ∃ major minor, (major, minor, NodeVersion.Flavor nv) ∈ knownFlavors
  end.
Proof.
  intros (Hf & Hv & Hb)%parseServerVersion_Ok. unfold toURL. rewrite Hv, Hb.
  destruct (afterFirst "-"%char version) as [rest|] eqn:Hrest.
  - case_decide as Hempty; [done|]. split; [done|].
    rewrite flavorFromVersion_cases in Hf.
    destruct (strconv_Atoi _) as [major|]; [|done].
    destruct (afterFirst "."%char _) as [r|]; [|done].
    destruct (strconv_Atoi _) as [minor|]; [|done].
    destruct (lookupFlavor major (floorMinor minor)) as [flavor|] eqn:Hl; [|done].
    injection Hf as <-. exists major, (floorMinor minor).
    by apply lookupFlavor_known.
  - rewrite decide_True by done. by rewrite (beforeFirst_no_sep _ _ Hrest).
Qed.

Lemma toURL_release_or_build_witness :
  toURL "http://releases/" "http://builds/"
    (NodeVersion.mk "6.5.1" "mad-hatter" "2134") =
    "http://builds/mad-hatter/2134" ∧
  toURL "http://releases/" "http://builds/"
    (NodeVersion.mk "7.0.0" "cheshire-cat" EmptyString) =
    "http://releases/7.0.0".
Proof.
  split.
  - apply (toURL_release_or_build "http://releases/" "http://builds/"
             "6.5.1-2134" (NodeVersion.mk "6.5.1" "mad-hatter" "2134") eq_refl).
  - apply (toURL_release_or_build "http://releases/" "http://builds/"
             "7.0.0" (NodeVersion.mk "7.0.0" "cheshire-cat" EmptyString) eq_refl).
Defined.

(** ** What a fan-out did, goroutine by goroutine *)

Lemma runPool_runs env fuel pool got w errs w' :
  runPool env fuel pool got w = (Done errs, w') →
  ∃ runs : list (list call * option error),
    Forall2 (λ t r, taskRun env t r.1 r.2) pool runs ∧
    (∃ tr, trace w' = trace w ++ tr ∧ tr ≡ₚ concat (fst <$> runs)) ∧
    errs ≡ₚ got ++ (snd <$> runs).
Proof.
  revert pool got w. induction fuel as [|fuel IH]; intros pool got w Hrun.
  - destruct pool; [|done]. injection Hrun as <- <-.
    exists []. split; [constructor|]. split; [exists []|];
      by rewrite app_nil_r.
  - destruct (decide (pool = [])) as [->|Hne].
    { injection Hrun as <- <-.
      exists []. split; [constructor|]. split; [exists []|];
        by rewrite app_nil_r. }
    rewrite runPool_step in Hrun by done. cbv zeta in Hrun.
    set (i := (sched env (tick w) `mod` length pool)%nat) in *.
    destruct (pool !! i) as [[e|msg|c k]|] eqn:Ht; try done.
    + apply IH in Hrun as (runs' & Hf & (tr & Htr & Hperm) & Herrs).
      rewrite delete_take_drop in Hf.
      apply Forall2_app_inv_l in Hf as (r1 & r2 & Hf1 & Hf2 & ->).
      exists (r1 ++ ([], e) :: r2). split_and!.
      * rewrite <-(take_drop_middle pool i _ Ht).
        apply Forall2_app; [done|]. by constructor.
      * exists tr. split; [done|].
        rewrite Hperm, !fmap_app, fmap_cons, !concat_app. done.
      * rewrite Herrs, !fmap_app, fmap_cons. simpl.
        rewrite <-!app_assoc. simpl.
        by rewrite (Permutation_middle (snd <$> r1)).
    + pose proof (handle_trace env c w) as Hc.
      destruct (handle env c w) as [r w1] eqn:Hh. simpl in Hc.
      apply IH in Hrun as (runs' & Hf & (tr & Htr & Hperm) & Herrs).
      rewrite insert_take_drop in Hf by (by eapply lookup_lt_Some).
      apply Forall2_app_inv_l in Hf as (r1 & r2' & Hf1 & Hf2 & ->).
      apply Forall2_cons_inv_l in Hf2 as ([l e0] & r2 & Hk & Hf2 & ->).
      exists (r1 ++ (c :: l, e0) :: r2). split_and!.
      * rewrite <-(take_drop_middle pool i _ Ht).
        apply Forall2_app; [done|]. constructor; [|done].
        simpl. exists w, l. split; [done|]. by rewrite Hh.
      * exists (c :: tr). split.
        { rewrite Htr, Hc, <-app_assoc. done. }
        rewrite Hperm, !fmap_app, !fmap_cons, !concat_app. simpl.
        by rewrite Permutation_middle.
      * by rewrite Herrs, !fmap_app, !fmap_cons.
Qed.

Lemma runPool_no_crash env fuel pool got w :
  Forall neverPanics pool →
  ∀ msg w', runPool env fuel pool got w ≠ (Crashed msg, w').
Proof.
  revert pool got w. induction fuel as [|fuel IH]; intros pool got w Hnp msg w'.
  - by destruct pool.
  - destruct (decide (pool = [])) as [->|Hne]; [done|].
    rewrite runPool_step by done. cbv zeta.
    destruct (pool !! _) as [[e|msg'|c k]|] eqn:Ht; try done.
    + apply IH. by apply Forall_delete.
    + by pose proof (Forall_lookup_1 _ _ _ _ Hnp Ht).
    + pose proof (Forall_lookup_1 _ _ _ _ Hnp Ht) as Hk. simpl in Hk.
      destruct (handle env c w) as [r w1].
      apply IH. by apply Forall_insert.
Qed.

Lemma runPool_calls env fuel pool got w (P : call → Prop) :
  Forall (allActions P) pool →
  ∃ tr, trace (runPool env fuel pool got w).2 = trace w ++ tr ∧ Forall P tr.
Proof.
  revert pool got w. induction fuel as [|fuel IH]; intros pool got w Hp.
  - exists []. rewrite app_nil_r. by destruct pool.
  - destruct (decide (pool = [])) as [->|Hne];
      [exists []; by rewrite app_nil_r|].
    rewrite runPool_step by done. cbv zeta.
    set (i := (sched env (tick w) `mod` length pool)%nat).
    destruct (pool !! i) as [[e|msg|c k]|] eqn:Ht;
      try (exists []; by rewrite app_nil_r).
    + apply (IH _ _ {| store := store w; tick := S (tick w); trace := trace w |}).
      by apply Forall_delete.
    + pose proof (Forall_lookup_1 _ _ _ _ Hp Ht) as [Hc Hk].
      pose proof (handle_trace env c w) as Htr.
      destruct (handle env c w) as [r w1]. simpl in Htr.
      destruct (IH (<[i := k r]> pool) got w1) as (tr & Heq & Hall).
      { apply Forall_insert; [done|apply Hk]. }
      exists (c :: tr). split; [by rewrite Heq, Htr, <-app_assoc|].
      by constructor.
Qed.

Lemma run_calls env fuel {A} (p : prog A) w (P : call → Prop) :
  callsOnly P p →
  ∃ tr, trace (run env fuel p w).2 = trace w ++ tr ∧ Forall P tr.
Proof.
  revert w. induction p as [a|msg|s k IH]; intros w Hp; simpl;
    try (exists []; by rewrite app_nil_r).
  destruct Hp as [Hs Hk]. destruct s as [c|ws]; simpl in Hs.
  - pose proof (handle_trace env c w) as Htr.
    destruct (handle env c w) as [r w1]. simpl in Htr.
    destruct (IH r w1 (Hk r)) as (tr & Heq & Hall).
    exists (c :: tr). split; [by rewrite Heq, Htr, <-app_assoc|]. by constructor.
  - destruct (runPool_calls env fuel ws [] w P Hs) as (tr1 & Heq1 & Hall1).
    destruct (runPool env fuel ws [] w) as [[errs|msg|] w1]; simpl in *;
      try by exists tr1.
    destruct (IH errs w1 (Hk errs)) as (tr2 & Heq2 & Hall2).
    exists (tr1 ++ tr2). split; [by rewrite Heq2, Heq1, <-app_assoc|].
    by apply Forall_app.
Qed.

Lemma callsOnly_bind {A B} P (p : prog A) (f : A → prog B) :
  callsOnly P p → (∀ a, callsOnly P (f a)) → callsOnly P (p ≫= f).
Proof. apply allActions_bind. Qed.

(** ** More on killing a cluster *)

Lemma killNode_runs env ctx ids runs :
  Forall2 (λ t r, taskRun env t r.1 r.2) (killNode ctx <$> ids) runs →
  concat (fst <$> runs) = ContainerStop <$> ids ∧
  Forall (λ err, ∃ t id, id ∈ ids ∧ answer env t (ContainerStop id) = err)
    (snd <$> runs).
Proof.
  revert runs. induction ids as [|id ids IH]; intros runs Hf.
  - apply Forall2_nil_inv_l in Hf as ->. by split.
  - rewrite fmap_cons in Hf.
    apply Forall2_cons_inv_l in Hf as ([l e] & runs' & Hrun & Hf & ->).
    destruct (IH _ Hf) as [Hcalls Herrs].
    destruct Hrun as (w & rest & Hl & Hrest & He). simpl in Hl, Hrest, He.
    subst l rest e. rewrite !fmap_cons. cbn [fst snd concat app].
    split; [by rewrite Hcalls|].
    constructor.
    + exists (tick w), id. split; [left|done].
    + eapply Forall_impl; [exact Herrs|]. intros err (t & id' & Hin & Hans).
      exists t, id'. split; [by right|done].
Qed.

Lemma killNode_neverPanics ctx id : neverPanics (killNode ctx id).
Proof. done. Qed.

Lemma killNode_bounded ctx id : bounded 1 (killNode ctx id).
Proof. done. Qed.

Lemma firstError_elem errs e : firstError errs = Some e → Some e ∈ errs.
Proof.
  intros (i & Hi & _)%firstError_Some. by eapply list_elem_of_lookup_2.
Qed.

(** X6.  When the cluster is visible to the caller, and the caller holds the
    ownership override or is the recorded owner, [killCluster] returns
    (given steps for the goroutines), and after the calls of the listing
    the runtime is asked to stop exactly the containers that carry the
    cluster's label, once each, by the first 12 bytes of their ids, in the
    order the scheduler chose.  An error returned is the answer of one of
    these stops, and if every stop succeeds none is returned. *)
Theorem killCluster_stops_each_node env fuel ctx clusterID cs w :
  answer env (tick w) ContainerList = Ok cs →
  wfListing cs →
  existsFor ctx cs clusterID →
  ContextIgnoreOwnership ctx = true ∨
    ownerIn (store w) clusterID = ContextUser ctx →
  (2 * length (membersOf clusterID cs) ≤ fuel)%nat →
  ∃ err w' stops,
    run env fuel (killCluster ctx clusterID) w = (Done err, w') ∧
    trace w' = trace w ++ listingCalls cs ++ stops ∧
    stops ≡ₚ (λ c, ContainerStop (shortID c)) <$> membersOf clusterID cs ∧
    (∀ e, err = Some e →
       ∃ t c, c ∈ membersOf clusterID cs ∧
              answer env t (ContainerStop (shortID c)) = Some e) ∧
    ((∀ t c, c ∈ membersOf clusterID cs →
             answer env t (ContainerStop (shortID c)) = None) →
     err = None).
Proof.
  intros Hans Hwf Hex Hmay Hfuel.
  rewrite (killCluster_run _ _ _ _ cs), lookupCluster_Some by done.
  assert (Hcheck : negb (ContextIgnoreOwnership ctx)
             && bool_decide (Cluster.Owner (clusterOf (store w)
                  (clusterID, membersOf clusterID cs)) ≠ ContextUser ctx) = false).
  { destruct Hmay as [->|Hown]; [done|].
    apply andb_false_iff. right. apply bool_decide_eq_false. intros Hne.
    apply Hne. exact Hown. }
  rewrite Hcheck.
  assert (Hids : Node.ContainerID <$> Cluster.Nodes (clusterOf (store w)
                   (clusterID, membersOf clusterID cs)) =
                 shortID <$> membersOf clusterID cs).
  { simpl. rewrite <-list_fmap_compose. done. }
  rewrite Hids.
  set (ids := shortID <$> membersOf clusterID cs).
  set (w1 := after (listingCalls cs) (store w) w).
  pose proof (runPool_uniform env fuel (killNode ctx <$> ids) 1 w1) as Htot.
  pose proof (runPool_no_crash env fuel (killNode ctx <$> ids) [] w1) as Hnc.
  destruct (runPool env fuel (killNode ctx <$> ids) [] w1)
    as [[errs|msg|] w2] eqn:Hpool.
  - apply runPool_runs in Hpool as (runs & Hf & (tr & Htr & Hperm) & Herrs).
    apply killNode_runs in Hf as [Hcalls Hans'].
    exists (firstError errs), w2, tr. cbn [chain]. split_and!.
    + done.
    + rewrite Htr. unfold w1. simpl. by rewrite <-app_assoc.
    + rewrite Hperm, Hcalls. unfold ids. by rewrite <-list_fmap_compose.
    + intros e He%firstError_elem. rewrite Herrs in He. simpl in He.
      rewrite Forall_forall in Hans'.
      destruct (Hans' _ He) as (t & id & Hid & Hanswer).
      unfold ids in Hid. apply list_elem_of_fmap in Hid as (c & -> & Hc).
      by exists t, c.
    + intros Hquiet. apply firstError_None, Forall_forall.
      intros err Herr. rewrite Herrs in Herr. simpl in Herr.
      rewrite Forall_forall in Hans'.
      destruct (Hans' _ Herr) as (t & id & Hid & <-).
      unfold ids in Hid. apply list_elem_of_fmap in Hid as (c & -> & Hc).
      by apply Hquiet.
  - exfalso. eapply Hnc; [|done].
    apply Forall_fmap, Forall_forall. intros. apply killNode_neverPanics.
  - exfalso. apply Htot.
    + apply Forall_fmap, Forall_forall. intros. apply killNode_bounded.
    + unfold ids. rewrite !length_fmap. lia.
Qed.

Lemma killCluster_stops_each_node_witness :
  ∃ w' stops,
    run Sample.quiet 4 (killCluster Sample.alice "deadbeef")
      (Sample.start (Sample.ownedBy "alice" 5000)) = (Done None, w') ∧
    stops ≡ₚ [ContainerStop "111111111111"; ContainerStop "222222222222"] ∧
    trace w' = listingCalls Sample.listing ++ stops.
Proof.
  destruct (killCluster_stops_each_node Sample.quiet 4 Sample.alice "deadbeef"
              Sample.listing (Sample.start (Sample.ownedBy "alice" 5000)))
    as (err & w' & stops & Hrun & Htr & Hperm & _ & Hquiet).
  - reflexivity.
  - compute_done.
  - split; [|compute_done].
    exists (Sample.container "1111111111111111" "deadbeef" "alice").
    split; [by left|compute_done].
  - right. reflexivity.
  - compute_done.
  - exists w', stops. rewrite Hrun, (Hquiet (λ _ _ _, eq_refl)).
    split; [reflexivity|]. split; [exact Hperm|exact Htr].
Defined.

(** X7.  [getAllClusters], [getCluster] and [killCluster] never write to
    the metadata store, however the run ends: killing a cluster leaves its
    record where it was. *)
Theorem listing_and_kill_leave_store env fuel ctx clusterID w :
  store (run env fuel (getAllClusters ctx) w).2 = store w ∧
  store (run env fuel (getCluster ctx clusterID) w).2 = store w ∧
  store (run env fuel (killCluster ctx clusterID) w).2 = store w.
Proof.
  split_and!; apply run_store.
  - unfold getAllClusters. apply allActions_bind.
    + split; [by intros []|done].
    + intros [cs|e]; [|done].
      apply allActions_bind; [apply forClusters_readsOnly|done].
  - unfold getCluster, getAllClusters.
    repeat (apply allActions_bind; [|intros ?]).
    + split; [by intros []|done].
    + destruct a as [cs|e]; [|done].
      apply allActions_bind; [apply forClusters_readsOnly|done].
    + destruct a as [clusters|e]; [|done]. by destruct (List.find _ _).
  - apply killCluster_readsOnly.
Qed.

(** X8.  When the runtime fails to list the containers, [getAllClusters],
    [getCluster], [killCluster] and [refreshCluster] each return that
    error, and the listing is the only call made: the store is neither
    read nor written, the clock is not read and nothing is stopped. *)
Theorem listing_failure_is_returned env fuel ctx clusterID newTimeout e w :
  answer env (tick w) ContainerList = Err e →
  let w1 := after [ContainerList] (store w) w in
  run env fuel (getAllClusters ctx) w = (Done (Err e), w1) ∧
  run env fuel (getCluster ctx clusterID) w = (Done (Err e), w1) ∧
  run env fuel (killCluster ctx clusterID) w = (Done (Some e), w1) ∧
  run env fuel (refreshCluster ctx clusterID newTimeout) w = (Done (Some e), w1).
Proof.
  intros Hans w1.
  assert (Hall : run env fuel (getAllClusters ctx) w = (Done (Err e), w1)).
  { unfold getAllClusters.
    rewrite run_bind, (run_call _ _ ContainerList). unfold handle. simpl.
    rewrite Hans. simpl. by rewrite advance_after. }
  assert (Hget : run env fuel (getCluster ctx clusterID) w = (Done (Err e), w1)).
  { unfold getCluster. by rewrite run_bind, Hall. }
  split_and!; [done|done| |].
  - unfold killCluster. by rewrite run_bind, Hget.
  - unfold refreshCluster. by rewrite run_bind, Hget.
Qed.

Lemma listing_failure_is_returned_witness :
  run Scenario.listingFails 0 (killCluster Sample.alice "deadbeef")
    (Sample.start ∅) =
    (Done (Some "cannot connect to the docker daemon"),
     after [ContainerList] ∅ (Sample.start ∅)) ∧
  run Scenario.listingFails 0 (refreshCluster Sample.alice "deadbeef" 60)
    (Sample.start ∅) =
    (Done (Some "cannot connect to the docker daemon"),
     after [ContainerList] ∅ (Sample.start ∅)).
Proof.
  destruct (listing_failure_is_returned Scenario.listingFails 0 Sample.alice
              "deadbeef" 60 "cannot connect to the docker daemon"
              (Sample.start ∅) eq_refl) as (_ & _ & Hkill & Hrefresh).
  split; [exact Hkill|exact Hrefresh].
Defined.

(** ** More on the listing *)

Lemma nodesOf_panics members creator nodes :
  ¬ Forall wfContainer members →
  ∃ msg, nodesOf members creator nodes = Panics msg.
Proof.
  revert creator nodes. induction members as [|c members IH];
    intros creator nodes Hnot.
  - exfalso. apply Hnot. constructor.
  - simpl. destruct (Container.NetworkSettings c) as [nets|] eqn:Hnets; [|eauto].
    unfold go_prefix. case_decide as Hlen; simpl; [|eauto].
    apply IH. intros Hwf. apply Hnot. constructor; [|done].
    split; [done|]. rewrite Hnets. eauto.
Qed.

Lemma forClusters_panics env fuel ctx entries clusters w :
  Exists (λ entry, ¬ Forall wfContainer entry.2) entries →
  ∃ msg w', run env fuel (forClusters ctx entries clusters) w = (Crashed msg, w').
Proof.
  revert clusters w. induction entries as [|[clusterID members] entries IH];
    intros clusters w Hex.
  - by apply Exists_nil in Hex.
  - simpl. destruct (storeGet (store w) clusterID) as [meta err].
    destruct (decide (Forall wfContainer members)) as [Hwf|Hnwf].
    + rewrite (nodesOf_wf _ _ _ Hwf).
      apply Exists_cons in Hex as [Hhead|Htail]; [done|].
      destruct (negb _ && _); by apply IH.
    + destruct (nodesOf_panics members EmptyString [] Hnwf) as [msg ->]. eauto.
Qed.

(** X9.  When the runtime lists a labelled container whose id has fewer
    than 12 bytes or whose network settings are absent, [getAllClusters]
    panics, whoever the caller is. *)
Theorem getAllClusters_panics_on_malformed env fuel ctx cs w :
  answer env (tick w) ContainerList = Ok cs →
  ¬ wfListing cs →
  ∃ msg w', run env fuel (getAllClusters ctx) w = (Crashed msg, w').
Proof.
  intros Hans Hnwf. unfold getAllClusters.
  rewrite run_bind, (run_call _ _ ContainerList). unfold handle. simpl.
  rewrite Hans. rewrite run_bind.
  destruct (forClusters_panics env fuel ctx (map_to_list (groupByCluster cs)) []
              (advance ContainerList (store w) w)) as (msg & w' & ->); [|eauto].
  unfold wfListing in Hnwf. apply not_Forall_Exists in Hnwf; [|apply _].
  apply Exists_exists in Hnwf as (c & Hc & Hbad).
  assert (Hlbl : clusterIDOf c ≠ EmptyString).
  { intros Heq. apply Hbad. by intros []. }
  apply Exists_exists.
  exists (clusterIDOf c, membersOf (clusterIDOf c) cs). split.
  - apply groupByCluster_entry. split; [done|].
    apply membersOf_nonempty. by exists c.
  - simpl. intros Hall. rewrite Forall_forall in Hall. apply Hbad. intros _.
    apply Hall. by apply list_elem_of_filter.
Qed.

Lemma getAllClusters_panics_on_malformed_witness :
  ∃ msg w',
    run (Scenario.envWith (Ok Scenario.truncated) None) 0
      (getAllClusters Sample.alice) (Sample.start ∅) = (Crashed msg, w').
Proof.
  apply (getAllClusters_panics_on_malformed _ _ _ Scenario.truncated).
  - reflexivity.
  - compute_done.
Defined.

Lemma length_substring_0 n (s : string) :
  (n ≤ String.length s)%nat → String.length (String.substring 0 n s) = n.
Proof.
  revert s. induction n as [|n IHn]; intros [|x s] Hs; simpl in *;
    try done; try lia.
  f_equal. apply IHn. lia.
Qed.

Lemma listedClusters_ids ctx st cs :
  Cluster.ID <$> listedClusters ctx st cs =
    (visibleEntries ctx (map_to_list (groupByCluster cs))).*1.
Proof. unfold listedClusters. by rewrite <-list_fmap_compose. Qed.

(** X10.  On a listing the loop can walk, [getAllClusters] returns clusters
    with pairwise distinct ids, none of them empty. *)
Theorem getAllClusters_distinct_ids env fuel ctx cs w :
  answer env (tick w) ContainerList = Ok cs →
  wfListing cs →
  ∃ clusters w',
    run env fuel (getAllClusters ctx) w = (Done (Ok clusters), w') ∧
    NoDup (Cluster.ID <$> clusters) ∧
    EmptyString ∉ (Cluster.ID <$> clusters).
Proof.
  intros Hans Hwf. eexists _, _. split; [by apply getAllClusters_run|].
  split.
  - rewrite listedClusters_ids. apply NoDup_fmap_fst.
    + intros clusterID m1 m2 [_ H1]%list_elem_of_filter [_ H2]%list_elem_of_filter.
      apply groupByCluster_entry in H1 as [-> _].
      by apply groupByCluster_entry in H2 as [-> _].
    + apply NoDup_filter, NoDup_map_to_list.
  - intros (cl & Hid & Hin)%list_elem_of_fmap.
    apply listedClusters_elem in Hin as (Hne & _ & _).
    apply membersOf_nonempty in Hne as (c & _ & [Hnonempty _]).
    by rewrite <-Hid in Hnonempty.
Qed.

Lemma getAllClusters_distinct_ids_witness :
  ∃ clusters w',
    run Sample.quiet 0 (getAllClusters Sample.alice) (Sample.start ∅) =
      (Done (Ok clusters), w') ∧
    NoDup (Cluster.ID <$> clusters) ∧
    EmptyString ∉ (Cluster.ID <$> clusters).
Proof.
  apply (getAllClusters_distinct_ids _ _ _ Sample.listing).
  - reflexivity.
  - compute_done.
Defined.

(** X11.  On a listing the loop can walk, every cluster returned by
    [getAllClusters] has at least one node, and its nodes are, in listing
    order, the containers that carry its id as label: the node's container
    id is the first 12 bytes of the container's (so it has 12 bytes), state,
    name and initial server version are the container's state and labels,
    and the addresses are those of the [macvlan0] network, empty when the
    container is not on that network. *)
Theorem getAllClusters_nodes env fuel ctx cs w :
  answer env (tick w) ContainerList = Ok cs →
  wfListing cs →
  ∃ clusters w',
    run env fuel (getAllClusters ctx) w = (Done (Ok clusters), w') ∧
    ∀ cluster, cluster ∈ clusters →
      Cluster.Nodes cluster ≠ [] ∧
      Forall2 (λ c node,
                 Node.ContainerID node = shortID c ∧
                 String.length (Node.ContainerID node) = 12%nat ∧
                 Node.State node = Container.State c ∧
                 Node.Name node = go_label (Container.Labels c) label_node_name ∧
                 Node.InitialServerVersion node =
                   go_label (Container.Labels c) label_initial_server_version ∧
                 match Container.NetworkSettings c ≫= (.!! "macvlan0") with
                 | Some net =>
                     Node.IPv4Address node = EndpointSettings.IPAddress net ∧
                     Node.IPv6Address node = EndpointSettings.GlobalIPv6Address net
                 | None =>
                     Node.IPv4Address node = EmptyString ∧
                     Node.IPv6Address node = EmptyString
                 end)
        (filter (λ c, clusterIDOf c = Cluster.ID cluster) cs)
        (Cluster.Nodes cluster).
Proof.
  intros Hans Hwf. eexists _, _. split; [by apply getAllClusters_run|].
  intros cl (Hne & _ & ->)%listedClusters_elem. simpl in *.
  split; [by destruct (membersOf _ cs)|].
  assert (Hfilter : filter (λ c, clusterIDOf c = Cluster.ID cl) cs =
                    membersOf (Cluster.ID cl) cs).
  { apply membersOf_nonempty in Hne as (c0 & _ & [Hid _]).
    unfold membersOf. apply list_filter_iff. intros c. unfold inCluster.
    split; [by intros ->|by intros [_ ->]]. }
  rewrite Hfilter. apply Forall2_fmap_r, Forall_Forall2_diag, Forall_forall.
  intros c Hc.
  pose proof (wfListing_members cs (Cluster.ID cl) Hwf) as Hall.
  rewrite Forall_forall in Hall. destruct (Hall c Hc) as [Hlen _].
  unfold nodeOf, shortID. simpl. split_and!; try done.
  - by apply length_substring_0.
  - by destruct (Container.NetworkSettings c ≫= _).
Qed.

Lemma getAllClusters_nodes_witness :
  ∃ clusters w',
    run Sample.quiet 0 (getAllClusters Sample.alice) (Sample.start ∅) =
      (Done (Ok clusters), w') ∧
    ∀ cluster, cluster ∈ clusters →
      length (Cluster.Nodes cluster) =
        length (filter (λ c, clusterIDOf c = Cluster.ID cluster) Sample.listing).
Proof.
  destruct (getAllClusters_nodes Sample.quiet 0 Sample.alice Sample.listing
              (Sample.start ∅)) as (clusters & w' & Hrun & Hnodes).
  - reflexivity.
  - compute_done.
  - exists clusters, w'. split; [exact Hrun|].
    intros cluster Hin. destruct (Hnodes cluster Hin) as [_ Hall].
    symmetry. exact (Forall2_length _ _ _ Hall).
Defined.

(** X12.  A caller with an empty identity and no ownership override sees no
    cluster at all: [getAllClusters] returns the empty list and
    [getCluster] fails with not-found for every id, also for clusters
    whose containers have no creator label, since their creator is taken to
    be [unknown]. *)
Theorem anonymous_caller_sees_nothing env fuel ctx clusterID cs w :
  answer env (tick w) ContainerList = Ok cs →
  wfListing cs →
  ContextUser ctx = EmptyString →
  ContextIgnoreOwnership ctx = false →
  run env fuel (getAllClusters ctx) w =
    (Done (Ok []), after (listingCalls cs) (store w) w) ∧
  run env fuel (getCluster ctx clusterID) w =
    (Done (Err err_not_found), after (listingCalls cs) (store w) w).
Proof.
  intros Hans Hwf Huser Hi.
  assert (Hhidden : ∀ members, ¬ visibleTo ctx (derivedCreator members)).
  { intros members [?|Heq]; [congruence|].
    rewrite Huser in Heq. by apply derivedCreator_nonempty in Heq. }
  split.
  - rewrite (getAllClusters_run _ _ _ cs) by done. do 3 f_equal.
    unfold listedClusters, visibleEntries.
    induction (map_to_list (groupByCluster cs)) as [|entry entries IH]; [done|].
    rewrite filter_cons, decide_False by apply Hhidden. done.
  - rewrite (getCluster_run _ _ _ _ cs) by done.
    rewrite lookupCluster_None; [done|]. intros [_ Hvis]. by eapply Hhidden.
Qed.

Lemma anonymous_caller_sees_nothing_witness :
  run Sample.quiet 0 (getAllClusters Scenario.anonymous) (Sample.start ∅) =
    (Done (Ok []), after (listingCalls Sample.listing) ∅ (Sample.start ∅)) ∧
  run Sample.quiet 0 (getCluster Scenario.anonymous "deadbeef") (Sample.start ∅) =
    (Done (Err err_not_found),
     after (listingCalls Sample.listing) ∅ (Sample.start ∅)).
Proof.
  apply (anonymous_caller_sees_nothing Sample.quiet 0 Scenario.anonymous
           "deadbeef" Sample.listing (Sample.start ∅)).
  - reflexivity.
  - compute_done.
  - reflexivity.
  - reflexivity.
Defined.

Lemma derivedCreator_unlabelled members :
  Forall (λ c, creatorOf c = EmptyString) members →
  derivedCreator members = "unknown".
Proof.
  intros Hall. unfold derivedCreator.
  assert (filter (λ s, s ≠ EmptyString) (creatorOf <$> members) = []) as ->;
    [|done].
  induction Hall as [|c members Hc _ IH]; [done|].
  rewrite fmap_cons, filter_cons, decide_False, IH; [done|].
  by intros Hne.
Qed.

(** X13.  A cluster none of whose containers has a creator label is
    reported with creator [unknown]; [getCluster] returns it to a caller
    who holds the ownership override or whose identity is the string
    [unknown], and fails with not-found for every other caller. *)
Theorem unknown_caller_sees_unlabelled env fuel ctx clusterID cs w :
  answer env (tick w) ContainerList = Ok cs →
  wfListing cs →
  (∃ c, c ∈ cs ∧ inCluster clusterID c) →
  (∀ c, c ∈ cs → inCluster clusterID c → creatorOf c = EmptyString) →
  ∃ cluster,
    run env fuel (getCluster ctx clusterID) w =
      (Done (if decide (ContextIgnoreOwnership ctx = true ∨
                        ContextUser ctx = "unknown")
             then Ok cluster else Err err_not_found),
       after (listingCalls cs) (store w) w) ∧
    Cluster.ID cluster = clusterID ∧
    Cluster.Creator cluster = "unknown".
Proof.
  intros Hans Hwf Hex Hnone.
  assert (Hcreator : derivedCreator (membersOf clusterID cs) = "unknown").
  { apply derivedCreator_unlabelled, Forall_forall.
    intros c [Hin Hc]%list_elem_of_filter. by apply Hnone. }
  exists (clusterOf (store w) (clusterID, membersOf clusterID cs)).
  split; [|split; [done|exact Hcreator]].
  rewrite (getCluster_run _ _ _ _ cs) by done.
  case_decide as Hd.
  - rewrite lookupCluster_Some; [done|]. split; [done|].
    rewrite Hcreator. destruct Hd as [?|?]; [by left|by right].
  - rewrite lookupCluster_None; [done|]. intros [_ Hvis]. apply Hd.
    rewrite Hcreator in Hvis. destruct Hvis as [?|?]; [by left|by right].
Qed.

Lemma unknown_caller_sees_unlabelled_witness :
  ∃ cluster,
    run (Scenario.envWith (Ok Scenario.orphans) None) 0
      (getCluster Scenario.unknown "0ddba11") (Sample.start ∅) =
      (Done (Ok cluster),
       after (listingCalls Scenario.orphans) ∅ (Sample.start ∅)) ∧
    Cluster.ID cluster = "0ddba11" ∧
    Cluster.Creator cluster = "unknown".
Proof.
  apply (unknown_caller_sees_unlabelled (Scenario.envWith (Ok Scenario.orphans) None)
           0 Scenario.unknown "0ddba11" Scenario.orphans (Sample.start ∅)).
  - reflexivity.
  - compute_done.
  - eexists. split; [by left|compute_done].
  - intros c Hc _. apply list_elem_of_singleton in Hc. by rewrite Hc.
Defined.

(** ** More on refresh *)

Lemma handle_store_other env clusterID c w other :
  refreshCall clusterID c → other ≠ clusterID →
  store (handle env c w).2 !! other = store w !! other.
Proof.
  intros Hc Hne. unfold handle. destruct c; simpl in *; try done.
  - subst. unfold storeCreate. destruct (answer env _ _); simpl; [done|].
    by rewrite lookup_insert_ne.
  - subst. unfold storeUpdate. destruct (answer env _ _); simpl; [done|].
    destruct (store w !! clusterID) as [meta|]; [|done].
    destruct (f meta); simpl; [|done]. by rewrite lookup_insert_ne.
Qed.

Lemma forClusters_callsOnly (P : call → Prop) ctx entries clusters :
  (∀ k, P (GetClusterMeta k)) → callsOnly P (forClusters ctx entries clusters).
Proof.
  intros Hget. revert clusters.
  induction entries as [|[clusterID members] entries IH]; intros clusters; [done|].
  split; [apply Hget|]. intros [meta err]. simpl.
  destruct (nodesOf _ _ _) as [[creator nodes]|msg]; [|done].
  destruct (negb _ && _); apply IH.
Qed.

Lemma getCluster_callsOnly (P : call → Prop) ctx clusterID :
  P ContainerList → (∀ k, P (GetClusterMeta k)) →
  callsOnly P (getCluster ctx clusterID).
Proof.
  intros Hlist Hget. unfold getCluster, getAllClusters.
  repeat (apply callsOnly_bind; [|intros ?]).
  - by split.
  - destruct a as [cs|e]; [|done].
    apply callsOnly_bind; [by apply forClusters_callsOnly|done].
  - destruct a as [clusters|e]; [|done]. by destruct (List.find _ _).
Qed.

Lemma killCluster_callsOnly (P : call → Prop) ctx clusterID :
  P ContainerList → (∀ k, P (GetClusterMeta k)) → (∀ id, P (ContainerStop id)) →
  callsOnly P (killCluster ctx clusterID).
Proof.
  intros Hlist Hget Hstop. unfold killCluster.
  apply callsOnly_bind; [by apply getCluster_callsOnly|].
  intros [cluster|e]; [|done].
  destruct (negb _ && _); [done|].
  apply callsOnly_bind; [|done]. split; [|done].
  apply Forall_fmap, Forall_forall. intros id _. by split.
Qed.

Lemma refreshCluster_callsOnly ctx clusterID newTimeout :
  callsOnly (refreshCall clusterID) (refreshCluster ctx clusterID newTimeout).
Proof.
  unfold refreshCluster.
  apply callsOnly_bind; [by apply getCluster_callsOnly|].
  intros [cluster|e]; [|done].
  apply callsOnly_bind; [by split|]. intros now.
  apply callsOnly_bind; [by split|]. intros [meta [err|]]; by split.
Qed.

Lemma runPool_store_other env fuel pool got w clusterID other :
  Forall (allActions (refreshCall clusterID)) pool →
  other ≠ clusterID →
  store (runPool env fuel pool got w).2 !! other = store w !! other.
Proof.
  intros Hp Hne. revert pool got w Hp.
  induction fuel as [|fuel IH]; intros pool got w Hp.
  - by destruct pool.
  - destruct (decide (pool = [])) as [->|Hnil]; [done|].
    rewrite runPool_step by done. cbv zeta.
    set (i := (sched env (tick w) `mod` length pool)%nat).
    destruct (pool !! i) as [[e|msg|c k]|] eqn:Ht; try done.
    + rewrite IH; [done|]. by apply Forall_delete.
    + pose proof (Forall_lookup_1 _ _ _ _ Hp Ht) as [Hc Hk].
      pose proof (handle_store_other env clusterID c w other Hc Hne) as Hst.
      destruct (handle env c w) as [r w1]. simpl in Hst.
      rewrite IH; [done|]. apply Forall_insert; [done|apply Hk].
Qed.

Lemma run_store_other env fuel {A} (p : prog A) w clusterID other :
  callsOnly (refreshCall clusterID) p →
  other ≠ clusterID →
  store (run env fuel p w).2 !! other = store w !! other.
Proof.
  intros Hp Hne. revert w.
  induction p as [a|msg|s k IH]; intros w; simpl; try done.
  destruct Hp as [Hs Hk]. destruct s as [c|ws]; simpl in Hs.
  - pose proof (handle_store_other env clusterID c w other Hs Hne) as Hst.
    destruct (handle env c w) as [r w1]. simpl in Hst.
    rewrite IH; [done|apply Hk].
  - pose proof (runPool_store_other env fuel ws [] w clusterID other Hs Hne)
      as Hst.
    destruct (runPool env fuel ws [] w) as [[errs|msg|] w1]; simpl in *;
      try done.
    rewrite IH; [done|apply Hk].
Qed.

(** X14.  However it ends, [refreshCluster] lists the containers, reads
    records and the clock, creates or updates the record of its own cluster
    id, and does nothing else: no container is created, started or stopped,
    and the record of every other cluster id is as it was. *)
Theorem refreshCluster_touches_only_its_record env fuel ctx clusterID
    newTimeout w :
  ∃ calls,
    trace (run env fuel (refreshCluster ctx clusterID newTimeout) w).2 =
      trace w ++ calls ∧
    Forall (refreshCall clusterID) calls ∧
    ∀ other, other ≠ clusterID →
      store (run env fuel (refreshCluster ctx clusterID newTimeout) w).2 !! other =
        store w !! other.
Proof.
  destruct (run_calls env fuel (refreshCluster ctx clusterID newTimeout) w
              (refreshCall clusterID) (refreshCluster_callsOnly _ _ _))
    as (calls & Htr & Hall).
  exists calls. split_and!; [done..|].
  intros other Hne. apply (run_store_other _ _ _ _ clusterID); [|done].
  apply refreshCluster_callsOnly.
Qed.

(** ** More on allocation *)

(** X15.  What one node allocation does, seen from outside.  If it
    completes, the node has a version descriptor and the calls are one of:
    the creation alone, which failed with the error returned; the creation
    and a start, which failed with the error returned; creation, start and
    an inspection, which failed with the error returned; or creation,
    start, inspection and at most two registrations of the container's host
    name with the DNS service, and no error is returned, whatever the
    registrations answered.  Without a DNS service host there is no
    registration.  The started container is the one the creation returned,
    and no container is ever stopped here. *)
Theorem allocateWorker_outcomes cfg env ctx clusterID timeout node calls err :
  taskRun env (allocateWorker cfg ctx clusterID timeout node) calls err →
  ∃ nv,
    NodeOptions.VersionInfo node = Some nv ∧
    let create := createRequest cfg ctx clusterID node nv in
    (∃ t e, answer env t create = Err e ∧
            calls = [create] ∧ err = Some e) ∨
    (∃ id t0, answer env t0 create = Ok id ∧
       ((∃ t e, answer env t (ContainerStart id) = Some e ∧
                calls = [create; ContainerStart id] ∧ err = Some e) ∨
        (∃ t e, answer env t (ContainerInspect id) = Err e ∧
                calls = [create; ContainerStart id; ContainerInspect id] ∧
                err = Some e) ∨
        (∃ registrations,
           calls = create :: ContainerStart id :: ContainerInspect id
                     :: registrations ∧
           err = None ∧
           Forall (isRegistration cfg clusterID node) registrations ∧
           (length registrations ≤ 2)%nat ∧
           (dnsSvcHost cfg = EmptyString → registrations = [])))).
Proof.
  unfold allocateWorker, allocateNode, registerDomainName, createRequest,
    containerName.
  destruct (NodeOptions.VersionInfo node) as [nv|]; [|done].
  intros H. exists nv. split; [done|]. revert H. cbv zeta.
  simpl. intros (w0 & rest & -> & H). revert H. simpl.
  destruct (answer env (tick w0) _) as [id|e] eqn:Hcreate; simpl.
  2:{ intros [-> ->]. left. by exists (tick w0), e. }
  intros H. right. exists id, (tick w0). split; [done|]. revert H.
  intros (w1 & rest1 & -> & H). revert H. simpl.
  destruct (answer env (tick w1) _) as [e|] eqn:Hstart; simpl.
  { intros [-> ->]. left. by exists (tick w1), e. }
  intros (w2 & rest2 & -> & H). revert H. simpl.
  destruct (answer env (tick w2) _) as [json|e] eqn:Hinspect; simpl.
  2:{ intros [-> ->]. right. left. by exists (tick w2), e. }
  destruct (json ≫= _) as [net|]; simpl; [|done].
  intros H. do 2 right. exists rest2. revert H.
  repeat case_decide; simpl.
  all: repeat first
    [ intros [-> ->] | intros (? & ? & -> & Hrun); revert Hrun; simpl ].
  all: split_and!; try done; repeat constructor; simpl; try done; try lia.
Qed.

Lemma allocateWorker_outcomes_witness :
  ∃ calls id registrations,
    taskRun Sample.quiet
      (allocateWorker Scenario.cfgDns Sample.alice "deadbeef" 4600 Sample.node)
      calls None ∧
    calls = createRequest Scenario.cfgDns Sample.alice "deadbeef" Sample.node
              (NodeVersion.mk "6.5.1" "mad-hatter" "2134")
            :: ContainerStart id :: ContainerInspect id :: registrations ∧
    Forall (isRegistration Scenario.cfgDns "deadbeef" Sample.node) registrations ∧
    length registrations = 1%nat.
Proof.
  assert (Hrun : ∃ calls,
            taskRun Sample.quiet
              (allocateWorker Scenario.cfgDns Sample.alice "deadbeef" 4600
                 Sample.node) calls None ∧ length calls = 4%nat).
  { eexists. split.
    - simpl. exists (Sample.start ∅). eexists. split; [reflexivity|]. simpl.
      exists (Sample.start ∅). eexists. split; [reflexivity|]. simpl.
      exists (Sample.start ∅). eexists. split; [reflexivity|]. simpl.
      exists (Sample.start ∅). eexists. split; [reflexivity|]. simpl.
      split; reflexivity.
    - reflexivity. }
  destruct Hrun as (calls & Hrun & Hlen).
  destruct (allocateWorker_outcomes Scenario.cfgDns Sample.quiet Sample.alice
              "deadbeef" 4600 Sample.node calls None Hrun)
    as (nv & Hnv & [(t & e & _ & _ & He)
                   |(id & t0 & _ & [(t & e & _ & _ & He)
                                   |[(t & e & _ & _ & He)
                                    |(regs & Hcalls & _ & Hregs & _)]])]);
    try discriminate He.
  injection Hnv as <-.
  exists calls, id, regs. split; [exact Hrun|]. split; [exact Hcalls|].
  split; [exact Hregs|]. rewrite Hcalls in Hlen. simpl in Hlen. lia.
Defined.

Lemma nodesToAllocate_lookup nodes i :
  nodesToAllocate nodes !! i =
    (λ node,
       if decide (NodeOptions.Name node = EmptyString) then
         NodeOptions.mk ("node_" +:+ pretty (S i))
           (NodeOptions.Platform node) (NodeOptions.ServerVersion node)
           (NodeOptions.VersionInfo node)
       else node) <$> nodes !! i.
Proof. unfold nodesToAllocate. by rewrite list_lookup_imap. Qed.

(** X16.  The naming loop of [allocateCluster] keeps the number and order
    of the nodes, leaves a named node as it is, and names an unnamed node
    [node_] followed by its position counted from 1, changing nothing else
    of it.  No node is left without a name and two unnamed nodes get
    different names.  Given names are not checked against generated ones:
    a node given the name that an unnamed node gets shares it. *)
Theorem nodesToAllocate_names nodes :
  length (nodesToAllocate nodes) = length nodes ∧
  (∀ i node, nodes !! i = Some node →
     ∃ node',
       nodesToAllocate nodes !! i = Some node' ∧
       NodeOptions.Name node' ≠ EmptyString ∧
       (NodeOptions.Name node ≠ EmptyString → node' = node) ∧
       (NodeOptions.Name node = EmptyString →
        NodeOptions.Name node' = "node_" +:+ pretty (S i)) ∧
       NodeOptions.Platform node' = NodeOptions.Platform node ∧
       NodeOptions.ServerVersion node' = NodeOptions.ServerVersion node ∧
       NodeOptions.VersionInfo node' = NodeOptions.VersionInfo node) ∧
  (∀ i j ni nj,
     nodes !! i = Some ni → nodes !! j = Some nj →
     NodeOptions.Name ni = EmptyString → NodeOptions.Name nj = EmptyString →
     i ≠ j →
     NodeOptions.Name <$> nodesToAllocate nodes !! i ≠
       NodeOptions.Name <$> nodesToAllocate nodes !! j) ∧
  (∀ i j ni nj,
     nodes !! i = Some ni → nodes !! j = Some nj →
     NodeOptions.Name ni = "node_" +:+ pretty (S j) →
     NodeOptions.Name nj = EmptyString →
     NodeOptions.Name <$> nodesToAllocate nodes !! i =
       NodeOptions.Name <$> nodesToAllocate nodes !! j).
Proof.
  split_and!.
  - unfold nodesToAllocate. apply length_imap.
  - intros i node Hi. rewrite nodesToAllocate_lookup, Hi. simpl.
    eexists. split; [done|]. case_decide; simpl; split_and!; try done.
  - intros i j ni nj Hi Hj Hni Hnj Hne.
    rewrite !nodesToAllocate_lookup, Hi, Hj. simpl.
    rewrite !decide_True by done. simpl. intros [= Heq].
    apply Hne. change (pretty (S i) = pretty (S j)) in Heq.
    apply (inj pretty) in Heq. lia.
  - intros i j ni nj Hi Hj Hni Hnj.
    rewrite !nodesToAllocate_lookup, Hi, Hj. simpl.
    rewrite (decide_True (P := NodeOptions.Name nj = EmptyString)) by done.
    rewrite decide_False; [by rewrite Hni|].
    by rewrite Hni.
Qed.

Lemma newClusterID_length env w : String.length (newClusterID env w) = 8%nat.
Proof.
  unfold newClusterID. destruct (answer env (tick w) NewRandomUUID) as [s Hs].
  simpl. apply bool_decide_eq_true in Hs. apply length_substring_0. lia.
Qed.

Lemma allocateWorker_run cfg env ctx clusterID timeout node calls err :
  taskRun env (allocateWorker cfg ctx clusterID timeout node) calls err →
  omap createdName calls = [containerName clusterID node] ∧
  Forall (labelledFor clusterID (ContextUser ctx)) calls.
Proof.
  unfold allocateWorker, allocateNode, registerDomainName, containerName.
  destruct (NodeOptions.VersionInfo node) as [nv|]; [|done].
  simpl. intros (w0 & rest & -> & H).
  assert (Hrest : omap createdName rest = [] ∧
                  Forall (labelledFor clusterID (ContextUser ctx)) rest);
    [|destruct Hrest as [Hnil Hall]; split;
      [change (containerName clusterID node :: omap createdName rest =
               [containerName clusterID node]); by rewrite Hnil|];
      constructor; [|done]; by vm_compute].
  revert H.
  repeat (simpl;
          match goal with
          | |- False → _ => intros []
          | |- (_ = [] ∧ _) → _ => intros [-> _]
          | |- (∃ _ _, _ ∧ _) → _ => intros (? & ? & -> & H); revert H
          | |- context [match ?x with _ => _ end] => destruct x
          end);
    simpl; split; try done; repeat constructor.
Qed.

Lemma workers_runs cfg env ctx clusterID timeout nodes runs :
  Forall2 (λ t r, taskRun env t r.1 r.2)
    (allocateWorker cfg ctx clusterID timeout <$> nodes) runs →
  omap createdName (concat (fst <$> runs)) = containerName clusterID <$> nodes ∧
  Forall (labelledFor clusterID (ContextUser ctx)) (concat (fst <$> runs)).
Proof.
  revert runs. induction nodes as [|node nodes IH]; intros runs Hf.
  - apply Forall2_nil_inv_l in Hf as ->. by split.
  - rewrite fmap_cons in Hf.
    apply Forall2_cons_inv_l in Hf as ([l e] & runs' & Hrun & Hf & ->).
    destruct (IH _ Hf) as [Hnames Hlabels].
    apply allocateWorker_run in Hrun as [Hname Hlabel]. simpl in Hname, Hlabel.
    rewrite !fmap_cons. cbn [fst concat]. split.
    + by rewrite omap_app, Hname, Hnames.
    + by apply Forall_app.
Qed.

Lemma omap_createdName_nil calls :
  Forall (λ c, createdName c = None) calls → omap createdName calls = [].
Proof.
  induction 1 as [|c calls Hc _ IH]; [done|].
  change (omap createdName (c :: calls)) with
    (match createdName c with
     | Some name => name :: omap createdName calls
     | None => omap createdName calls
     end).
  by rewrite Hc.
Qed.

Lemma allocateWorker_calls cfg ctx clusterID timeout node :
  allActions workerCall (allocateWorker cfg ctx clusterID timeout node).
Proof.
  unfold allocateWorker, allocateNode, registerDomainName.
  destruct (NodeOptions.VersionInfo node); [|done].
  split; [done|]. intros [id|e]; [|done].
  split; [done|]. intros [e|]; [done|].
  split; [done|]. intros [json|e]; [|done]. simpl.
  destruct (json ≫= _) as [net|]; [|done].
  repeat case_decide; simpl; repeat split; done.
Qed.

(** X17.  When the store refuses to create the record, [allocateCluster]
    returns the store's error after three calls (the random id, the clock,
    the creation): no container is created and the store is as it was. *)
Theorem allocateCluster_store_failure cfg env fuel ctx opts w e :
  withinBounds opts →
  createFault env ctx w = Some e →
  run env fuel (allocateCluster cfg ctx opts) w =
    (Done (Err e),
     {| store := store w; tick := (tick w + 3)%nat;
        trace := trace w ++ [NewRandomUUID; TimeNow; createCall env ctx w] |}).
Proof.
  intros Hb Hfault.
  by rewrite (allocateCluster_valid _ _ _ Hb), allocateChecked_run, Hfault.
Qed.

Lemma allocateCluster_store_failure_witness :
  run Scenario.storeFails 0
    (allocateCluster Sample.cfg Sample.alice (Sample.threeNodes 3600))
    (Sample.start ∅) =
    (Done (Err "store is read-only"),
     {| store := ∅; tick := 3;
        trace := [NewRandomUUID; TimeNow;
                  createCall Scenario.storeFails Sample.alice (Sample.start ∅)] |}).
Proof.
  apply (allocateCluster_store_failure Sample.cfg Scenario.storeFails 0
           Sample.alice (Sample.threeNodes 3600) (Sample.start ∅)).
  - apply withinBounds_threeNodes. compute_done.
  - reflexivity.
Defined.

(** X18.  When the record was created and [allocateCluster] returns, with a
    cluster id or with an error, then after the three calls of the prologue
    the containers it asked the runtime to create are, up to the order the
    scheduler chose, one per node, named [dynclsr-], the new cluster id, a
    dash and the node's name; every such request carries the new cluster id
    and the caller as labels, which is what the listing groups and filters
    by. *)
Theorem allocateCluster_creates_each_node cfg env fuel ctx opts w r w' :
  withinBounds opts →
  createFault env ctx w = None →
  run env fuel (allocateCluster cfg ctx opts) w = (Done r, w') →
  ∃ calls,
    trace w' = trace w ++ prologue env ctx w ++ calls ∧
    omap createdName calls ≡ₚ
      containerName (newClusterID env w)
        <$> nodesToAllocate (ClusterOptions.Nodes opts) ∧
    Forall (labelledFor (newClusterID env w) (ContextUser ctx)) calls.
Proof.
  intros Hb Hok.
  rewrite (allocateCluster_valid _ _ _ Hb), allocateChecked_run, Hok.
  destruct (runPool _ _ _ _ _) as [[errs|msg|] w2] eqn:Hpool; cbn [chain];
    [|done..].
  apply runPool_runs in Hpool as (runs & Hf & (tr & Htr & Hperm) & _).
  unfold workers in Hf.
  apply (workers_runs cfg env ctx (newClusterID env w)
           (ClusterMeta.Timeout (newMeta env ctx w))
           (nodesToAllocate (ClusterOptions.Nodes opts))) in Hf
    as [Hnames Hlabels].
  change (trace (created env ctx w)) with (trace w ++ prologue env ctx w) in Htr.
  assert (Htr_ok : omap createdName tr ≡ₚ
            containerName (newClusterID env w)
              <$> nodesToAllocate (ClusterOptions.Nodes opts) ∧
          Forall (labelledFor (newClusterID env w) (ContextUser ctx)) tr).
  { split; [by rewrite Hperm, Hnames|]. by rewrite Hperm. }
  destruct Htr_ok as [Htr_names Htr_labels].
  destruct (firstError errs) as [e|].
  - unfold discard.
    destruct (run_calls env fuel (killCluster ctx (newClusterID env w)) w2
                (λ c, createdName c = None)) as (kcalls & Hk & Hnone).
    { by apply killCluster_callsOnly. }
    destruct (run env fuel (killCluster _ _) w2) as [[?|?|] w3]; cbn [chain];
      [|done..].
    intros [= <- <-]. simpl in Hk.
    exists (tr ++ kcalls). split_and!.
    + by rewrite Hk, Htr, <-!app_assoc.
    + by rewrite omap_app, (omap_createdName_nil kcalls), app_nil_r.
    + apply Forall_app. split; [done|].
      eapply Forall_impl; [exact Hnone|]. by intros [].
  - intros [= <- <-]. exists tr. by rewrite Htr, <-app_assoc.
Qed.

Lemma allocateCluster_creates_each_node_witness :
  match run Sample.quiet 18
          (allocateCluster Sample.cfg Sample.alice (Sample.threeNodes 3600))
          (Sample.start ∅)
  with
  | (Done _, w') =>
      ∃ calls,
        trace w' = prologue Sample.quiet Sample.alice (Sample.start ∅) ++ calls ∧
        omap createdName calls ≡ₚ
          [ "dynclsr-deadbeef-node_1"; "dynclsr-deadbeef-node_2";
            "dynclsr-deadbeef-node_3" ]
  | _ => False
  end.
Proof.
  destruct (run Sample.quiet 18 _ _) as [[r|msg|] w'] eqn:Hrun.
  - destruct (allocateCluster_creates_each_node Sample.cfg Sample.quiet 18
                Sample.alice (Sample.threeNodes 3600) (Sample.start ∅) r w')
      as (calls & Htr & Hnames & _).
    + apply withinBounds_threeNodes. compute_done.
    + reflexivity.
    + exact Hrun.
    + exists calls. split; [exact Htr|exact Hnames].
  - vm_compute in Hrun. discriminate Hrun.
  - vm_compute in Hrun. discriminate Hrun.
Defined.

(** X19.  When [allocateCluster] returns a cluster id, it is the first 8
    bytes of the random UUID, the store is the one before with the new
    record added, and after the prologue only creations, starts,
    inspections and DNS registrations were made: nothing was listed or
    stopped. *)
Theorem allocateCluster_success cfg env fuel ctx opts w clusterID w' :
  withinBounds opts →
  run env fuel (allocateCluster cfg ctx opts) w = (Done (Ok clusterID), w') →
  clusterID = newClusterID env w ∧
  String.length clusterID = 8%nat ∧
  store w' = <[clusterID := newMeta env ctx w]> (store w) ∧
  ∃ calls,
    trace w' = trace w ++ prologue env ctx w ++ calls ∧
    Forall workerCall calls.
Proof.
  intros Hb. rewrite (allocateCluster_valid _ _ _ Hb), allocateChecked_run.
  destruct (createFault env ctx w) as [e|]; [done|].
  pose proof (runPool_store env fuel
                (workers cfg env ctx (ClusterOptions.Nodes opts) w) []
                (created env ctx w) (workers_readsOnly _ _ _ _ _)) as Hst.
  destruct (runPool_calls env fuel
              (workers cfg env ctx (ClusterOptions.Nodes opts) w) []
              (created env ctx w) workerCall) as (tr & Htr & Hall).
  { apply Forall_fmap, Forall_forall. intros. apply allocateWorker_calls. }
  destruct (runPool _ _ _ _ _) as [[errs|msg|] w2]; cbn [chain]; [|done..].
  destruct (firstError errs) as [e|].
  - unfold discard.
    by destruct (run env fuel (killCluster _ _) w2) as [[?|?|] w3].
  - intros [= <- <-]. simpl in Hst, Htr.
    split_and!; [done|apply newClusterID_length|done|].
    exists tr. split; [|done]. by rewrite Htr, <-app_assoc.
Qed.

Lemma allocateCluster_success_witness :
  match run Sample.quiet 18
          (allocateCluster Sample.cfg Sample.alice (Sample.threeNodes 3600))
          (Sample.start ∅)
  with
  | (Done (Ok clusterID), w') =>
      clusterID = "deadbeef" ∧
      store w' = {[ "deadbeef" := ClusterMeta.mk "alice" (1000 + 1 * Hour) ]}
  | _ => False
  end.
Proof.
  destruct (run Sample.quiet 18 _ _) as [[[clusterID|e]|msg|] w'] eqn:Hrun.
  - destruct (allocateCluster_success Sample.cfg Sample.quiet 18 Sample.alice
                (Sample.threeNodes 3600) (Sample.start ∅) clusterID w')
      as (Hid & _ & Hstore & _).
    + apply withinBounds_threeNodes. compute_done.
    + exact Hrun.
    + split; [exact Hid|]. rewrite Hstore, Hid. reflexivity.
  - vm_compute in Hrun. discriminate Hrun.
  - vm_compute in Hrun. discriminate Hrun.
  - vm_compute in Hrun. discriminate Hrun.
Defined.

(** X20.  Once the record is created, [allocateCluster] never removes it:
    however the run ends (a cluster id, an error after the teardown by
    [killCluster], a panic), the store is the one before with the new
    record added. *)
Theorem allocateCluster_record_stays cfg env fuel ctx opts w :
  withinBounds opts →
  createFault env ctx w = None →
  store (run env fuel (allocateCluster cfg ctx opts) w).2 =
    <[newClusterID env w := newMeta env ctx w]> (store w).
Proof.
  intros Hb Hok. rewrite (allocateCluster_valid _ _ _ Hb).
  by apply allocateChecked_store.
Qed.

Lemma allocateCluster_record_stays_witness :
  store (run Sample.thirdCreateFails 18
           (allocateCluster Sample.cfg Sample.alice (Sample.threeNodes 3600))
           (Sample.start ∅)).2 =
    {[ "deadbeef" := ClusterMeta.mk "alice" (1000 + 1 * Hour) ]}.
Proof.
  apply (allocateCluster_record_stays Sample.cfg Sample.thirdCreateFails 18
           Sample.alice (Sample.threeNodes 3600) (Sample.start ∅)).
  - apply withinBounds_threeNodes. compute_done.
  - reflexivity.
Defined.

(** X21.  A request with a node that has no version descriptor passes the
    four checks; once the record is created, the goroutine of that node
    dereferences the nil descriptor and the process dies of the panic
    (given steps for the goroutines).  The record stays in the store, and
    after the prologue only calls of node allocations were made: there is
    no teardown. *)
Theorem allocateCluster_nil_version_panics cfg env fuel ctx opts w node :
  withinBounds opts →
  createFault env ctx w = None →
  node ∈ ClusterOptions.Nodes opts →
  NodeOptions.VersionInfo node = None →
  (6 * length (ClusterOptions.Nodes opts) ≤ fuel)%nat →
  ∃ msg w',
    run env fuel (allocateCluster cfg ctx opts) w = (Crashed msg, w') ∧
    store w' = <[newClusterID env w := newMeta env ctx w]> (store w) ∧
    ∃ calls,
      trace w' = trace w ++ prologue env ctx w ++ calls ∧
      Forall workerCall calls.
Proof.
  intros Hb Hok Hin Hnil Hfuel.
  pose proof (allocateChecked_store cfg env fuel ctx (ClusterOptions.Nodes opts)
                w Hok) as Hst.
  revert Hst. rewrite (allocateCluster_valid _ _ _ Hb), allocateChecked_run, Hok.
  destruct (runPool_calls env fuel
              (workers cfg env ctx (ClusterOptions.Nodes opts) w) []
              (created env ctx w) workerCall) as (tr & Htr & Hall).
  { apply Forall_fmap, Forall_forall. intros. apply allocateWorker_calls. }
  revert Htr.
  pose proof (runPool_uniform env fuel
                (workers cfg env ctx (ClusterOptions.Nodes opts) w) 5
                (created env ctx w)) as Htot.
  destruct (runPool _ _ _ _ _) as [[errs|msg|] w2] eqn:Hpool; cbn [chain].
  - exfalso. apply runPool_runs in Hpool as (runs & Hf & _).
    apply list_elem_of_lookup in Hin as [i Hi].
    assert (Hw : workers cfg env ctx (ClusterOptions.Nodes opts) w !! i =
                 Some (Panic nil_dereference)).
    { unfold workers. rewrite list_lookup_fmap, nodesToAllocate_lookup, Hi.
      simpl. unfold allocateWorker, allocateNode.
      by case_decide; simpl; rewrite Hnil. }
    destruct (Forall2_lookup_l _ _ _ _ _ Hf Hw) as (r & _ & Hrun). done.
  - simpl. intros Htr Hst. exists msg, w2. split_and!; [done..|].
    exists tr. split; [|done]. by rewrite Htr, <-app_assoc.
  - exfalso. apply Htot.
    + apply Forall_fmap, Forall_forall. intros. apply allocateWorker_bounded.
    + unfold workers, nodesToAllocate. rewrite length_fmap, length_imap. lia.
Qed.

Lemma allocateCluster_nil_version_panics_witness :
  ∃ msg w',
    run Sample.quiet 12
      (allocateCluster Sample.cfg Sample.alice
         (ClusterOptions.mk 3600 [Sample.node; Scenario.unresolved]))
      (Sample.start ∅) = (Crashed msg, w') ∧
    store w' = {[ "deadbeef" := ClusterMeta.mk "alice" (1000 + 1 * Hour) ]}.
Proof.
  destruct (allocateCluster_nil_version_panics Sample.cfg Sample.quiet 12
              Sample.alice
              (ClusterOptions.mk 3600 [Sample.node; Scenario.unresolved])
              (Sample.start ∅) Scenario.unresolved)
    as (msg & w' & Hrun & Hstore & _).
  - compute_done.
  - reflexivity.
  - by right; left.
  - reflexivity.
  - compute_done.
  - exists msg, w'. split; [exact Hrun|exact Hstore].
Defined.

(** * Partial failure of an allocation, and its teardown *)

Lemma killCluster_listing_fails env fuel ctx clusterID e w :
  answer env (tick w) ContainerList = Err e →
  run env fuel (killCluster ctx clusterID) w =
    (Done (Some e), after [ContainerList] (store w) w).
Proof.
  intros Hans. unfold killCluster, getCluster, getAllClusters.
  rewrite !run_bind, (run_call _ _ ContainerList). unfold handle. simpl.
  rewrite Hans. simpl. by rewrite advance_after.
Qed.

Lemma killCluster_listing_malformed env fuel ctx clusterID cs w :
  answer env (tick w) ContainerList = Ok cs →
  ¬ wfListing cs →
  ∃ msg w', run env fuel (killCluster ctx clusterID) w = (Crashed msg, w').
Proof.
  intros Hans Hnwf. unfold killCluster, getCluster, getAllClusters.
  rewrite !run_bind, (run_call _ _ ContainerList). unfold handle. simpl.
  rewrite Hans. cbn [chain fst snd]. rewrite run_bind.
  destruct (forClusters_panics env fuel ctx (map_to_list (groupByCluster cs)) []
              (advance ContainerList (store w) w)) as (msg & w' & ->);
    [|by exists msg, w'].
  unfold wfListing in Hnwf. apply not_Forall_Exists in Hnwf; [|apply _].
  apply Exists_exists in Hnwf as (c & Hc & Hbad).
  assert (Hlbl : clusterIDOf c ≠ EmptyString).
  { intros Heq. apply Hbad. by intros []. }
  apply Exists_exists.
  exists (clusterIDOf c, membersOf (clusterIDOf c) cs). split.
  - apply groupByCluster_entry. split; [done|].
    apply membersOf_nonempty. by exists c.
  - simpl. intros Hall. rewrite Forall_forall in Hall. apply Hbad. intros _.
    apply Hall. by apply list_elem_of_filter.
Qed.

Lemma killCluster_by_owner env fuel ctx clusterID cs w :
  answer env (tick w) ContainerList = Ok cs →
  wfListing cs →
  ownerIn (store w) clusterID = ContextUser ctx →
  (2 * length (membersOf clusterID cs) ≤ fuel)%nat →
  ∃ err w' stops,
    run env fuel (killCluster ctx clusterID) w = (Done err, w') ∧
    trace w' = trace w ++ listingCalls cs ++ stops ∧
    stops ≡ₚ
      (if decide (visibleTo ctx (derivedCreator (membersOf clusterID cs)))
       then Rollback.stopsOf (membersOf clusterID cs) else []).
Proof.
  intros Hans Hwf Hown Hfuel.
  rewrite (killCluster_run _ _ _ _ cs) by done. unfold lookupCluster.
  case_decide as Hvis.
  - destruct Hvis as [Hne Hvis]. rewrite (decide_True (P := visibleTo _ _)) by done.
    assert (Hcheck : negb (ContextIgnoreOwnership ctx)
               && bool_decide (Cluster.Owner (clusterOf (store w)
                    (clusterID, membersOf clusterID cs)) ≠ ContextUser ctx) = false).
    { apply andb_false_iff. right. apply bool_decide_eq_false. intros Hneq.
      apply Hneq. exact Hown. }
    rewrite Hcheck.
    assert (Hids : Node.ContainerID <$> Cluster.Nodes (clusterOf (store w)
                     (clusterID, membersOf clusterID cs)) =
                   shortID <$> membersOf clusterID cs).
    { simpl. rewrite <-list_fmap_compose. done. }
    rewrite Hids.
    set (ids := shortID <$> membersOf clusterID cs).
    set (w1 := after (listingCalls cs) (store w) w).
    pose proof (runPool_uniform env fuel (killNode ctx <$> ids) 1 w1) as Htot.
    pose proof (runPool_no_crash env fuel (killNode ctx <$> ids) [] w1) as Hnc.
    destruct (runPool env fuel (killNode ctx <$> ids) [] w1)
      as [[errs|msg|] w2] eqn:Hpool.
    + apply runPool_runs in Hpool as (runs & Hf & (tr & Htr & Hperm) & Herrs).
      apply killNode_runs in Hf as [Hcalls _].
      exists (firstError errs), w2, tr. cbn [chain]. split_and!; [done| |].
      * rewrite Htr. unfold w1. simpl. by rewrite <-app_assoc.
      * rewrite Hperm, Hcalls. unfold ids, Rollback.stopsOf.
        by rewrite <-list_fmap_compose.
    + exfalso. eapply Hnc; [|done].
      apply Forall_fmap, Forall_forall. intros. apply killNode_neverPanics.
    + exfalso. apply Htot.
      * apply Forall_fmap, Forall_forall. intros. apply killNode_bounded.
      * unfold ids. rewrite !length_fmap. lia.
  - exists (Some err_not_found), (after (listingCalls cs) (store w) w), [].
    split_and!; [done|by rewrite app_nil_r|].
    case_decide as Hvis'; [|done].
    destruct (membersOf clusterID cs) as [|c members] eqn:Hm; [done|].
    exfalso. apply Hvis. by split.
Qed.

(** C1, as stated, fails: the teardown does not always reach the cluster.
    [killCluster] finds the cluster through the listing, which shows a
    cluster only to its creator; the containers of an allocation carry the
    caller's identity as creator label, and a cluster whose creator label
    is empty is listed as created by [unknown].  So for a caller whose
    identity is empty the teardown answers that the cluster was not found,
    and the nodes that were created stay: the error of the third node is
    returned, the runtime lists two containers of the new cluster, and
    nothing is asked to stop. *)
Lemma anonymous_failure_stops_nothing :
  ¬ (∀ cfg env fuel ctx opts w e w' cs,
       withinBounds opts →
       createFault env ctx w = None →
       (∀ t, answer env t ContainerList = Ok cs) →
       wfListing cs →
       run env fuel (allocateCluster cfg ctx opts) w = (Done (Err e), w') →
       ∀ c, c ∈ cs → inCluster (newClusterID env w) c →
            Exists (λ k, k = ContainerStop (shortID c)) (trace w')).
Proof.
  intros H.
  set (env := Rollback.thirdCreateFails Rollback.unclaimed).
  set (r := run env 18
              (allocateCluster Sample.cfg Scenario.anonymous
                 (Sample.threeNodes 3600)) (Sample.start ∅)).
  assert (Hrun : r = (Done (Err "no space left on device"), r.2))
    by (vm_compute; reflexivity).
  specialize (H Sample.cfg env 18%nat Scenario.anonymous (Sample.threeNodes 3600)
                (Sample.start ∅) "no space left on device" r.2
                Rollback.unclaimed).
  specialize (H ltac:(apply withinBounds_threeNodes; compute_done) eq_refl
                (λ _, eq_refl) ltac:(compute_done) Hrun
                (Sample.container "1111111111111111" "deadbeef" EmptyString)
                ltac:(by left) ltac:(compute_done)).
  vm_compute in H.
  repeat (apply Exists_cons in H as [H|H]; [discriminate H|]).
  by apply Exists_nil in H.
Qed.

(** C1, amended.  For a request within the bounds whose metadata record
    is written, and a scheduler bound that covers the goroutines of the
    allocation (each makes at most five calls and is received from once):
    the fan-out does not stop short; a panic in a goroutine ends the
    process; otherwise exactly as many results are received as there are
    nodes, before anything else happens.  If one of them is an error, let
    [e] be the first error in the order of arrival.  [killCluster] is then
    run on the new cluster id, from the state the fan-out left, and what it
    does depends on what the runtime answers to its listing:
    - the listing fails: the listing is the only call of the teardown,
      nothing is stopped, and [e] is returned without a cluster id;
    - the listing cannot be walked (a labelled container with a short id
      or without network settings): the teardown panics, the process dies
      and nothing is returned;
    - otherwise (and with a scheduler bound that covers the goroutines of
      the teardown): [e] is returned without a cluster id, the store is as
      the fan-out left it, and after the calls of the listing the runtime
      was asked to stop every listed container of the new cluster, once
      each, when the listing shows that cluster to the caller (ownership
      override, or the creator derived from the labels is the caller), and
      nothing at all when it does not; the owner check always passes,
      since the record written at the start names the caller. *)
Theorem allocateCluster_partial_failure cfg env fuel ctx opts w :
  withinBounds opts →
  createFault env ctx w = None →
  (6 * length (ClusterOptions.Nodes opts) ≤ fuel)%nat →
  let clusterID := newClusterID env w in
  let result := run env fuel (allocateCluster cfg ctx opts) w in
  match runPool env fuel (workers cfg env ctx (ClusterOptions.Nodes opts) w) []
          (created env ctx w) with
  | (OutOfFuel, _) => False
  | (Crashed msg, w2) => result = (Crashed msg, w2)
  | (Done errs, w2) =>
      length errs = length (ClusterOptions.Nodes opts) ∧
      ∀ i e,
        errs !! i = Some (Some e) →
        (∀ j, (j < i)%nat → errs !! j = Some None) →
        match answer env (tick w2) ContainerList with
        | Err _ =>
            result = (Done (Err e), after [ContainerList] (store w2) w2)
        | Ok cs =>
            if decide (wfListing cs) then
              (2 * length (membersOf clusterID cs) ≤ fuel)%nat →
              ∃ w' stops,
                result = (Done (Err e), w') ∧
                store w' = store w2 ∧
                trace w' = trace w2 ++ listingCalls cs ++ stops ∧
                stops ≡ₚ
                  (if decide (visibleTo ctx
                                (derivedCreator (membersOf clusterID cs)))
                   then Rollback.stopsOf (membersOf clusterID cs)
                   else [])
            else ∃ msg w', result = (Crashed msg, w')
        end
  end.
Proof.
  intros Hb Hok Hfuel clusterID result. subst result.
  rewrite (allocateCluster_valid _ _ _ Hb), allocateChecked_run, Hok.
  assert (Hlen : length (workers cfg env ctx (ClusterOptions.Nodes opts) w) =
                 length (ClusterOptions.Nodes opts)).
  { unfold workers, nodesToAllocate. by rewrite length_fmap, length_imap. }
  pose proof (runPool_uniform env fuel
                (workers cfg env ctx (ClusterOptions.Nodes opts) w) 5
                (created env ctx w)) as Htot.
  pose proof (runPool_store env fuel
                (workers cfg env ctx (ClusterOptions.Nodes opts) w) []
                (created env ctx w) (workers_readsOnly _ _ _ _ _)) as Hst.
  destruct (runPool _ _ _ _ _) as [[errs|msg|] w2]; cbn [chain fst snd] in *.
  - rewrite Hlen in Htot. split.
    { apply Htot; [|lia]. apply Forall_fmap, Forall_forall. intros.
      apply allocateWorker_bounded. }
    intros i e Hi Hbefore.
    assert (Hfirst : firstError errs = Some e).
    { apply firstError_Some. by exists i. }
    rewrite Hfirst. unfold discard.
    assert (Hown : ownerIn (store w2) clusterID = ContextUser ctx).
    { rewrite Hst. unfold ownerIn, storeGet, clusterID. simpl.
      by rewrite lookup_insert_eq. }
    destruct (answer env (tick w2) ContainerList) as [cs|e'] eqn:Hans.
    + case_decide as Hwf.
      * intros Hfuel2.
        destruct (killCluster_by_owner env fuel ctx clusterID cs w2 Hans Hwf
                    Hown Hfuel2) as (err & w' & stops & Hrun & Htr & Hperm).
        pose proof (run_store env fuel (killCluster ctx clusterID) w2
                      (killCluster_readsOnly _ _)) as Hstore.
        rewrite Hrun in Hstore. simpl in Hstore.
        exists w', stops. fold clusterID. by rewrite Hrun.
      * destruct (killCluster_listing_malformed env fuel ctx clusterID cs w2
                    Hans Hwf) as (msg & w' & Hrun).
        exists msg, w'. fold clusterID. by rewrite Hrun.
    + fold clusterID.
      by rewrite (killCluster_listing_fails _ _ _ _ e').
  - done.
  - apply Htot; [|lia]. apply Forall_fmap, Forall_forall. intros.
    apply allocateWorker_bounded.
Qed.

Lemma allocateCluster_partial_failure_witness :
  withinBounds (Sample.threeNodes 3600) ∧
  createFault Sample.thirdCreateFails Sample.alice (Sample.start ∅) = None ∧
  (6 * 3 ≤ 18)%nat ∧
  ∃ w' stops,
    run Sample.thirdCreateFails 18
      (allocateCluster Sample.cfg Sample.alice (Sample.threeNodes 3600))
      (Sample.start ∅) = (Done (Err "no space left on device"), w') ∧
    stops ≡ₚ [ContainerStop "111111111111"; ContainerStop "222222222222"] ∧
    trace w' =
      trace (runPool Sample.thirdCreateFails 18
               (workers Sample.cfg Sample.thirdCreateFails Sample.alice
                  (ClusterOptions.Nodes (Sample.threeNodes 3600))
                  (Sample.start ∅))
               [] (created Sample.thirdCreateFails Sample.alice
                     (Sample.start ∅))).2
        ++ listingCalls Sample.listing ++ stops.
Proof.
  assert (H1 : withinBounds (Sample.threeNodes 3600))
    by (apply withinBounds_threeNodes; compute_done).
  assert (H2 : createFault Sample.thirdCreateFails Sample.alice
                 (Sample.start ∅) = None) by reflexivity.
  assert (H3 : (6 * 3 ≤ 18)%nat) by lia.
  split; [exact H1|]. split; [exact H2|]. split; [exact H3|].
  pose proof (allocateCluster_partial_failure Sample.cfg
                Sample.thirdCreateFails 18 Sample.alice
                (Sample.threeNodes 3600) (Sample.start ∅) H1 H2 H3) as H.
  cbv zeta in H.
  destruct (runPool _ _ _ _ _) as [[errs|msg|] w2] eqn:Hpool.
  - destruct H as [_ Hfail].
    pose proof Hpool as Herrs. vm_compute in Herrs.
    injection Herrs as Herrs _. subst errs.
    specialize (Hfail 0%nat "no space left on device" eq_refl).
    destruct Hfail as (w' & stops & Hrun & _ & Htr & Hperm).
    + intros j Hj. lia.
    + compute_done.
    + exists w', stops. split; [exact Hrun|]. split; [exact Hperm|exact Htr].
  - vm_compute in Hpool. discriminate Hpool.
  - contradiction.
Defined.
